(** * com.qwirx.data: Cursor over a Datasource

    A shallow embedding of [src/Cursor.js] (com.qwirx.data.Cursor) and of
    the Datasource classes (com.qwirx.data.Datasource and
    com.qwirx.data.SimpleDatasource), followed by the properties of the
    positioning state machine, the dirty tracking, the discard and
    overwrite protocols and the optimistic [atomicReplace].

    JavaScript objects are references: records live in a store ([heap]),
    the Datasource's array and the Cursor's two record fields hold
    locations, and [goog.object.clone] allocates.  Methods are written in
    a state-and-exception monad over the whole [World] (store, the
    Datasource, every Cursor bound to it): a thrown exception keeps the
    mutations made before it, as in JavaScript.

    The language is a parameter ([JavaScript]): the values a field can
    hold, the operator [!=], and what a plain object reads at a name it
    does not own (a member of Object.prototype, or undefined).  Nothing
    is asked of [!=] beyond three facts about undefined, null and the
    members of Object.prototype; in particular a value may be loosely
    unequal to itself, as NaN is.  The general properties hold for every
    such language.  The data of the tests, the examples and the
    counterexamples live in one instance, [JsFragment].

    What the model fixes: there is one Datasource, a SimpleDatasource;
    records are plain objects (made by an object literal or by
    goog.object.clone), none of which owns a property named
    [hasOwnProperty] or [__proto__]; [!=] is a function of the two values
    it compares; the listeners registered on a Cursor answer the
    dispatcher and have no effect of their own.  [binarySearch], which
    rests on a utility outside the repository and on which no property
    below depends, is left out. *)

From Stdlib Require Import ZArith Lia Bool Ascii String.
From stdpp Require Import base option list strings gmap fin_maps.

Local Open Scope string_scope.
Local Open Scope list_scope.
Local Open Scope Z_scope.

(** ** The language *)

(** The values a property can hold. *)
Class Values : Type := Value : Type.

(** What the code uses of JavaScript on these values. *)
Class JavaScript {jsValues : Values} : Type := {
  undefined : Value;
  null : Value;
  (** [x != y] *)
  loose_neq : Value -> Value -> bool;
  (** [Object.prototype[k]]: what a plain object reads at a name it does
      not own, [undefined] unless Object.prototype defines [k] *)
  inherited : string -> Value;
  (** [undefined != undefined] is false *)
  undefined_loose_eq : loose_neq undefined undefined = false;
  (** [null != undefined] is false *)
  null_loose_eq : loose_neq null undefined = false;
  (** a member of Object.prototype (a function, an object, or undefined)
      is not unequal to itself *)
  inherited_loose_eq : forall k, loose_neq (inherited k) (inherited k) = false
}.

(** ** Locations of the object store *)

Abbreviation loc := nat (only parsing).

(** ** Positions, events, exceptions *)

Inductive Position : Type :=
  | BOF
  | EOF
  | NEW
  | Index (i : Z).

#[global] Instance Position_eq_dec : EqDecision Position.
Proof. solve_decision. Defined.

(** com.qwirx.data.Datasource.Events *)
Inductive DatasourceEvents : Type := ROWS_INSERT | ROWS_UPDATE | ROWS_DELETE.

#[global] Instance DatasourceEvents_eq_dec : EqDecision DatasourceEvents.
Proof. solve_decision. Defined.

(** com.qwirx.data.Datasource.RowEvent *)
Record DatasourceRowEvent : Type := DsRowEvent {
  dsType : DatasourceEvents;
  rowIndexes_ : list Z
}.

Definition getAffectedRows (e : DatasourceRowEvent) : list Z := rowIndexes_ e.

(** com.qwirx.data.Cursor.Events *)
Inductive CursorEvents : Type :=
  | MOVE_FIRST | MOVE_BACKWARD | MOVE_FORWARD | MOVE_LAST
  | MOVE_TO | CREATE_NEW | DELETE_CURRENT_ROW
  | BEFORE_DISCARD | DISCARD | BEFORE_SAVE | SAVE
  | BEFORE_OVERWRITE | OVERWRITE | MODIFIED.

#[global] Instance CursorEvents_eq_dec : EqDecision CursorEvents.
Proof. solve_decision. Defined.

(** An event dispatched by a Cursor: [type], and the fields the three
    shapes of the source carry ([position] of a RowEvent, [newPosition]
    of a MovementEvent, [numRows] of the object literal of moveRelative);
    a field that is absent or [undefined] is [None]. *)
Record CursorEvent : Type := Event {
  evType : CursorEvents;
  evPosition : option Position;
  evNewPosition : option Position;
  evNumRows : option Z
}.

(** [new com.qwirx.data.Cursor.RowEvent(type, position)] *)
Definition RowEvent (type : CursorEvents) (position : Position) : CursorEvent :=
  Event type (Some position) None None.

(** [new com.qwirx.data.Cursor.MovementEvent(type, oldPosition, newPosition)] *)
Definition MovementEvent (type : CursorEvents) (oldPosition : Position)
    (newPosition : option Position) : CursorEvent :=
  Event type (Some oldPosition) newPosition None.

Inductive Exception : Type :=
  | NoSuchRecord
  | ConcurrentModification (currentValues_ : loc)
  | IllegalMove
  | NoCurrentRecord
  | NoSuchField
  | DiscardBlocked
  | SaveBlocked
  | OverwriteBlocked
  | AssertionError
  | TypeError.

#[global] Instance Exception_eq_dec : EqDecision Exception.
Proof. solve_decision. Defined.

(** ** Outcomes *)

(** How a method call ends: it returns, it throws, or ([OutOfFuel]) the
    bound on the nesting of discard was reached. *)
Inductive Outcome (A : Type) : Type :=
  | Return (a : A)
  | Throw (e : Exception)
  | OutOfFuel.
Arguments Return {A} a.
Arguments Throw {A} e.
Arguments OutOfFuel {A}.

Section Model.

Context {jsValues : Values} {js : JavaScript}.

(** [x == y] *)
Definition loose_eq (x y : Value) : bool := negb (loose_neq x y).

(** ** Records (plain objects) *)

(** An object maps its own property names to values; a property can be
    owned and hold [undefined]. *)
Abbreviation JsObject := (gmap string Value).

(** [o.hasOwnProperty(k)] *)
Definition hasOwnProperty (o : JsObject) (k : string) : bool :=
  bool_decide (is_Some (o !! k)).

(** [o[k]]: an own property, or else what Object.prototype holds at [k]. *)
Definition getProp (o : JsObject) (k : string) : Value :=
  default (inherited k) (o !! k).

(** The names enumerated by [for (k in o)]: the members of
    Object.prototype are not enumerable. *)
Definition ownKeys (o : JsObject) : list string := (map_to_list o).*1.

(** ** The object store *)

Definition deref (h : list JsObject) (l : loc) : JsObject :=
  default ∅ (h !! l).

(** ** State *)

Record Column : Type := { name : string; caption : string }.

(** A listener registered on a Cursor; it answers [false] to cancel. *)
Record Listener : Type := {
  listenedType : CursorEvents;
  handler : CursorEvent -> bool
}.

Record SimpleDatasource : Type := {
  columns_ : list Column;
  data_ : list loc;
  (** the events the Datasource has dispatched, oldest first *)
  dsDispatched : list DatasourceRowEvent
}.

Record Cursor : Type := {
  position_ : Position;
  (** [null] or [undefined] is [None] *)
  currentRecordValues_ : option loc;
  currentRecordAsLoaded_ : option loc;
  listeners_ : list Listener;
  (** the events this Cursor has dispatched, oldest first *)
  dispatched : list CursorEvent
}.

(** One Datasource, the Cursors constructed on it in construction order
    (each one subscribes to ROWS_INSERT in its constructor and never
    unsubscribes), and the object store. *)
Record World : Type := {
  heap : list JsObject;
  dataSource_ : SimpleDatasource;
  cursors : list Cursor
}.

Definition withHeap (h : list JsObject) (w : World) : World :=
  {| heap := h; dataSource_ := dataSource_ w; cursors := cursors w |}.

Definition withDataSource (d : SimpleDatasource) (w : World) : World :=
  {| heap := heap w; dataSource_ := d; cursors := cursors w |}.

Definition withCursors (cs : list Cursor) (w : World) : World :=
  {| heap := heap w; dataSource_ := dataSource_ w; cursors := cs |}.

Definition withPosition (p : Position) (c : Cursor) : Cursor :=
  {| position_ := p;
     currentRecordValues_ := currentRecordValues_ c;
     currentRecordAsLoaded_ := currentRecordAsLoaded_ c;
     listeners_ := listeners_ c;
     dispatched := dispatched c |}.

Definition withCurrentRecordValues (v : option loc) (c : Cursor) : Cursor :=
  {| position_ := position_ c;
     currentRecordValues_ := v;
     currentRecordAsLoaded_ := currentRecordAsLoaded_ c;
     listeners_ := listeners_ c;
     dispatched := dispatched c |}.

Definition withCurrentRecordAsLoaded (v : option loc) (c : Cursor) : Cursor :=
  {| position_ := position_ c;
     currentRecordValues_ := currentRecordValues_ c;
     currentRecordAsLoaded_ := v;
     listeners_ := listeners_ c;
     dispatched := dispatched c |}.

Definition withListeners (ls : list Listener) (c : Cursor) : Cursor :=
  {| position_ := position_ c;
     currentRecordValues_ := currentRecordValues_ c;
     currentRecordAsLoaded_ := currentRecordAsLoaded_ c;
     listeners_ := ls;
     dispatched := dispatched c |}.

Definition withDispatched (es : list CursorEvent) (c : Cursor) : Cursor :=
  {| position_ := position_ c;
     currentRecordValues_ := currentRecordValues_ c;
     currentRecordAsLoaded_ := currentRecordAsLoaded_ c;
     listeners_ := listeners_ c;
     dispatched := es |}.

(** ** The monad of methods *)

Definition M (A : Type) : Type := World -> Outcome A * World.

Definition ret {A} (a : A) : M A := fun w => (Return a, w).
Definition throw {A} (e : Exception) : M A := fun w => (Throw e, w).
Definition outOfFuel {A} : M A := fun w => (OutOfFuel, w).

Definition bind {A B} (m : M A) (k : A -> M B) : M B :=
  fun w =>
    match m w with
    | (Return a, w') => k a w'
    | (Throw e, w') => (Throw e, w')
    | (OutOfFuel, w') => (OutOfFuel, w')
    end.

(** [try { m } catch (exception) { h exception }] *)
Definition tryCatch {A} (m : M A) (h : Exception -> M A) : M A :=
  fun w =>
    match m w with
    | (Throw e, w') => h e w'
    | r => r
    end.

Notation "x <- m ;; k" := (bind m (fun x => k))
  (at level 100, m at next level, k at level 200, right associativity).

Definition gets {A} (f : World -> A) : M A := fun w => (Return (f w), w).
Definition modify (f : World -> World) : M unit := fun w => (Return tt, f w).

(** [for (...) body]: the body runs on each element in order, and an
    exception leaves the loop. *)
Fixpoint forEach {A} (body : A -> M unit) (l : list A) : M unit :=
  match l with
  | [] => ret tt
  | x :: l' => _ <- body x ;; forEach body l'
  end.

(** *** Store operations *)

(** [{}] *)
Definition newObject : M loc :=
  fun w => (Return (length (heap w)), withHeap (heap w ++ [∅]) w).

(** [goog.object.clone(obj)]: a new object with the own properties of
    [obj]. *)
Definition goog_object_clone (obj : loc) : M loc :=
  fun w => (Return (length (heap w)),
            withHeap (heap w ++ [deref (heap w) obj]) w).

(** [obj[k]] *)
Definition readProp (obj : loc) (k : string) : M Value :=
  gets (fun w => getProp (deref (heap w) obj) k).

(** [obj[k] = v] *)
Definition writeProp (obj : loc) (k : string) (v : Value) : M unit :=
  modify (fun w => withHeap (<[obj := <[k := v]> (deref (heap w) obj)]> (heap w)) w).

(** [goog.asserts.assertObject(obj)]: the reference is to a live object. *)
Definition goog_asserts_assertObject (obj : loc) : M unit :=
  h <- gets heap ;;
  if bool_decide (obj < length h)%nat then ret tt else throw AssertionError.

(** *** Access to the Cursor objects *)

(** [this], for a method called on Cursor number [this]. *)
Definition getCursor (this : nat) : M Cursor :=
  fun w =>
    match cursors w !! this with
    | Some c => (Return c, w)
    | None => (Throw TypeError, w)
    end.

Definition updateCursor (this : nat) (f : Cursor -> Cursor) : M unit :=
  modify (fun w => withCursors (alter f this (cursors w)) w).

(** A reference that must not be [null]. *)
Definition requireObject (o : option loc) : M loc :=
  match o with
  | Some l => ret l
  | None => throw TypeError
  end.

Definition liftOutcome {A} (o : Outcome A) : M A := fun w => (o, w).

(** ** com.qwirx.data.Datasource and com.qwirx.data.SimpleDatasource *)

(** [Array.prototype.splice(start, deleteCount, item...)] on the array
    contents. *)
Definition splice {A} (start deleteCount : nat) (items : list A)
    (l : list A) : list A :=
  take start l ++ items ++ drop (start + deleteCount) l.

Definition Datasource_assertValidRow (rowIndex : Z) (opt_maxIndex : option Z)
    : M unit :=
  if rowIndex <? 0 then throw NoSuchRecord
  else
    d <- gets (fun w => data_ (dataSource_ w)) ;;
    let maxIndex :=
      match opt_maxIndex with
      | None => Z.of_nat (length d) - 1
      | Some m => m
      end in
    if rowIndex >? maxIndex then throw NoSuchRecord else ret tt.

Definition SimpleDatasource_getColumns : M (list Column) :=
  gets (fun w => columns_ (dataSource_ w)).

Definition SimpleDatasource_getCount : M Z :=
  gets (fun w => Z.of_nat (length (data_ (dataSource_ w)))).

Definition SimpleDatasource_get (rowIndex : Z) : M loc :=
  _ <- Datasource_assertValidRow rowIndex None ;;
  d <- gets (fun w => data_ (dataSource_ w)) ;;
  row <- requireObject (d !! Z.to_nat rowIndex) ;;
  goog_object_clone row.

Definition setData (d : list loc) : M unit :=
  modify (fun w =>
    withDataSource {| columns_ := columns_ (dataSource_ w);
                      data_ := d;
                      dsDispatched := dsDispatched (dataSource_ w) |} w).

(** ** com.qwirx.data.Cursor, first part: what the row-insertion handler
    needs *)

(** Modelled from the spec: goog.events.EventTarget, whose source is not
    in the repository.  Dispatch is synchronous: every listener registered
    for the type of the event runs, in registration order, and the
    dispatcher answers [false] when some listener cancelled (returned
    false).  Listeners are observers: they answer and change nothing. *)
Definition Cursor_dispatchEvent (this : nat) (e : CursorEvent) : M bool :=
  c <- getCursor this ;;
  let rv :=
    forallb (fun l => handler l e)
      (filter (fun l => listenedType l = evType e) (listeners_ c)) in
  _ <- updateCursor this (fun c => withDispatched (dispatched c ++ [e]) c) ;;
  ret rv.

Definition Cursor_addEventListener (this : nat) (type : CursorEvents)
    (h : CursorEvent -> bool) : M unit :=
  _ <- getCursor this ;;
  updateCursor this (fun c =>
    withListeners
      (listeners_ c ++ [{| listenedType := type; handler := h |}]) c).

(** getRowCount may answer [null], an unknown count ([None]); the count of
    a SimpleDatasource is always known. *)
Definition Cursor_getRowCount (this : nat) : M (option Z) :=
  n <- SimpleDatasource_getCount ;;
  ret (Some n).

Definition Cursor_getPosition (this : nat) : M Position :=
  c <- getCursor this ;;
  ret (position_ c).

(** The last branch of the source tests [position_ == NEW] once more,
    which the branch before it has excluded: there the record is always
    the one read from the Datasource. *)
Definition Cursor_reloadRecord (this : nat) : M unit :=
  c <- getCursor this ;;
  match position_ c with
  | BOF | EOF =>
      _ <- updateCursor this (withCurrentRecordValues None) ;;
      updateCursor this (withCurrentRecordAsLoaded None)
  | NEW =>
      values <- newObject ;;
      _ <- updateCursor this (withCurrentRecordValues (Some values)) ;;
      asLoaded <- newObject ;;
      updateCursor this (withCurrentRecordAsLoaded (Some asLoaded))
  | Index p =>
      values <- newObject ;;
      _ <- updateCursor this (withCurrentRecordValues (Some values)) ;;
      asLoaded <- newObject ;;
      _ <- updateCursor this (withCurrentRecordAsLoaded (Some asLoaded)) ;;
      columns <- SimpleDatasource_getColumns ;;
      record <- SimpleDatasource_get p ;;
      forEach (fun column =>
        v <- readProp record (name column) ;;
        _ <- writeProp asLoaded (name column) v ;;
        writeProp values (name column) v) columns
  end.

Definition Cursor_moveInternal (this : nat) (newPosition : Position) : M unit :=
  oldPosition <- Cursor_getPosition this ;;
  _ <- updateCursor this (withPosition newPosition) ;;
  _ <- Cursor_reloadRecord this ;;
  _ <- Cursor_dispatchEvent this
         (MovementEvent MOVE_TO oldPosition (Some newPosition)) ;;
  ret tt.

(** [rowIndex <= newPosition] is false when [newPosition] is one of the
    strings BOF, EOF, NEW (it converts to NaN). *)
Definition shiftForInsert (newPosition : Position) (rowIndex : Z) : Position :=
  match newPosition with
  | Index p => if rowIndex <=? p then Index (p + 1) else newPosition
  | _ => newPosition
  end.

Definition Cursor_handleDataSourceRowInsert (this : nat)
    (event : DatasourceRowEvent) : M unit :=
  let affected := getAffectedRows event in
  oldPosition <- Cursor_getPosition this ;;
  let newPosition := fold_left shiftForInsert affected oldPosition in
  if bool_decide (newPosition <> oldPosition)
  then Cursor_moveInternal this newPosition
  else ret tt.

(** ** The Datasource, second part: the mutations *)

(** Modelled from the spec: the dispatch of goog.events.EventTarget on the
    Datasource.  The listeners of ROWS_INSERT are the Cursors, in the
    order of their construction; the other row events have no listener
    in the repository. *)
Definition Datasource_dispatchEvent (e : DatasourceRowEvent) : M unit :=
  _ <- modify (fun w =>
         withDataSource
           {| columns_ := columns_ (dataSource_ w);
              data_ := data_ (dataSource_ w);
              dsDispatched := dsDispatched (dataSource_ w) ++ [e] |} w) ;;
  match dsType e with
  | ROWS_INSERT =>
      n <- gets (fun w => length (cursors w)) ;;
      forEach (fun this => Cursor_handleDataSourceRowInsert this e) (seq 0 n)
  | _ => ret tt
  end.

Definition SimpleDatasource_insert (rowIndex : Z) (newRecord : loc) : M unit :=
  d <- gets (fun w => data_ (dataSource_ w)) ;;
  _ <- Datasource_assertValidRow rowIndex (Some (Z.of_nat (length d))) ;;
  copy <- goog_object_clone newRecord ;;
  _ <- setData (splice (Z.to_nat rowIndex) 0 [copy] d) ;;
  Datasource_dispatchEvent (DsRowEvent ROWS_INSERT [rowIndex]).

Definition SimpleDatasource_add (newRecord : loc) : M Z :=
  pos <- SimpleDatasource_getCount ;;
  _ <- SimpleDatasource_insert pos newRecord ;;
  ret pos.

Definition SimpleDatasource_replace (rowIndex : Z) (newRecord : loc) : M unit :=
  _ <- Datasource_assertValidRow rowIndex None ;;
  d <- gets (fun w => data_ (dataSource_ w)) ;;
  copy <- goog_object_clone newRecord ;;
  _ <- setData (splice (Z.to_nat rowIndex) 1 [copy] d) ;;
  Datasource_dispatchEvent (DsRowEvent ROWS_UPDATE [rowIndex]).

Definition SimpleDatasource_remove (rowIndex : Z) : M unit :=
  _ <- Datasource_assertValidRow rowIndex None ;;
  d <- gets (fun w => data_ (dataSource_ w)) ;;
  _ <- setData (splice (Z.to_nat rowIndex) 1 [] d) ;;
  Datasource_dispatchEvent (DsRowEvent ROWS_DELETE [rowIndex]).

(** The two loops of atomicReplace: the first over the keys of the actual
    record, the second, run when the first found nothing, over the keys
    of the expected one. *)
Definition isDifferent (expectedCurrentValues actualCurrentValues : JsObject)
    : bool :=
  let isDifferent :=
    existsb (fun k =>
      hasOwnProperty actualCurrentValues k &&
      loose_neq (getProp expectedCurrentValues k)
                (getProp actualCurrentValues k))
      (ownKeys actualCurrentValues) in
  if negb isDifferent
  then
    existsb (fun k =>
      hasOwnProperty expectedCurrentValues k &&
      loose_neq (getProp expectedCurrentValues k)
                (getProp actualCurrentValues k))
      (ownKeys expectedCurrentValues)
  else isDifferent.

Definition Datasource_atomicReplace (rowIndex : Z)
    (expectedCurrentValues newValues : loc) : M unit :=
  _ <- goog_asserts_assertObject expectedCurrentValues ;;
  _ <- goog_asserts_assertObject newValues ;;
  _ <- Datasource_assertValidRow rowIndex None ;;
  actualCurrentValues <- SimpleDatasource_get rowIndex ;;
  h <- gets heap ;;
  if isDifferent (deref h expectedCurrentValues) (deref h actualCurrentValues)
  then throw (ConcurrentModification actualCurrentValues)
  else SimpleDatasource_replace rowIndex newValues.

(** [new com.qwirx.data.SimpleDatasource(columns, data)]: the array is
    copied and every record cloned. *)
Definition SimpleDatasource_new (columns : list Column) (data : list JsObject)
    : World :=
  {| heap := data;
     dataSource_ := {| columns_ := columns;
                       data_ := seq 0 (length data);
                       dsDispatched := [] |};
     cursors := [] |}.

(** ** com.qwirx.data.Cursor, second part *)

(** [new com.qwirx.data.Cursor(dataSource)]: positioned at BOF, the two
    record fields not yet assigned, subscribed to ROWS_INSERT. *)
Definition initialCursor : Cursor :=
  {| position_ := BOF;
     currentRecordValues_ := None;
     currentRecordAsLoaded_ := None;
     listeners_ := [];
     dispatched := [] |}.

Definition Cursor_new : M nat :=
  this <- gets (fun w => length (cursors w)) ;;
  _ <- modify (fun w => withCursors (cursors w ++ [initialCursor]) w) ;;
  ret this.

Definition Cursor_assertValidPosition (this : nat) (position : Position)
    : M bool :=
  rowCount <- Cursor_getRowCount this ;;
  match position with
  | BOF | EOF | NEW => ret true
  | Index p =>
      if (p >=? 0) &&
         match rowCount with
         | None => true
         | Some n => p <? n
         end
      then ret true
      else throw IllegalMove
  end.

Definition Cursor_isEOF (this : nat) : M bool :=
  c <- getCursor this ;;
  ret (bool_decide (position_ c = EOF)).

(** The two loops of isDirty. *)
Definition isDirtyLoops (newValues oldValues : JsObject) : bool :=
  if existsb (fun prop =>
       if negb (hasOwnProperty newValues prop) then false
       else if negb (hasOwnProperty oldValues prop) then true
       else loose_neq (getProp oldValues prop) (getProp newValues prop))
       (ownKeys newValues)
  then true
  else if existsb (fun prop =>
       if negb (hasOwnProperty oldValues prop) then false
       else negb (hasOwnProperty newValues prop))
       (ownKeys oldValues)
  then true
  else false.

(** With [currentRecordAsLoaded_] null and a property to compare,
    [oldValues.hasOwnProperty] is a TypeError; no method leaves the two
    fields in that state. *)
Definition Cursor_isDirty (this : nat) : M bool :=
  c <- getCursor this ;;
  match currentRecordValues_ c with
  | None => ret false
  | Some newValues =>
      h <- gets heap ;;
      match currentRecordAsLoaded_ c with
      | Some oldValues =>
          ret (isDirtyLoops (deref h newValues) (deref h oldValues))
      | None =>
          match ownKeys (deref h newValues) with
          | [] => ret false
          | _ :: _ => throw TypeError
          end
      end
  end.

Definition Cursor_assertCurrentRecord (this : nat) : M unit :=
  c <- getCursor this ;;
  match position_ c with
  | BOF | EOF => throw NoCurrentRecord
  | _ => ret tt
  end.

Definition Cursor_assertValidField (this : nat) (fieldName : string) : M unit :=
  columns <- SimpleDatasource_getColumns ;;
  if existsb (fun column => String.eqb (name column) fieldName) columns
  then ret tt
  else throw NoSuchField.

Definition Cursor_setFieldValue (this : nat) (fieldName : string)
    (newValue : Value) : M unit :=
  _ <- Cursor_assertCurrentRecord this ;;
  _ <- Cursor_assertValidField this fieldName ;;
  c <- getCursor this ;;
  values <- requireObject (currentRecordValues_ c) ;;
  _ <- writeProp values fieldName newValue ;;
  _ <- Cursor_dispatchEvent this (RowEvent MODIFIED (position_ c)) ;;
  ret tt.

Definition Cursor_getLoadedValues (this : nat) : M loc :=
  _ <- Cursor_assertCurrentRecord this ;;
  c <- getCursor this ;;
  asLoaded <- requireObject (currentRecordAsLoaded_ c) ;;
  goog_object_clone asLoaded.

Definition Cursor_getCurrentValues (this : nat) : M loc :=
  _ <- Cursor_assertCurrentRecord this ;;
  c <- getCursor this ;;
  values <- requireObject (currentRecordValues_ c) ;;
  goog_object_clone values.

(** *** setPosition, maybeDiscard and discard

    The three methods call each other: setPosition calls maybeDiscard,
    which calls discard, which calls setPosition when the Cursor is at
    NEW.  [Cursor_maybeDiscardWith] and [Cursor_setPositionWith] take the
    discard they call and [Cursor_discardWith] the setPosition it calls;
    [Cursor_discard_fuel] ties them with a bound on the nesting.  The
    nested call finds currentValues a copy of the loaded values, which at
    NEW are the empty object that reloadRecord made: it does not discard
    again, and the result does not depend on the bound
    ([Cursor_discard_fuel_stable] below). *)

Definition Cursor_maybeDiscardWith
    (discard : nat -> option Position -> M unit)
    (this : nat) (opt_newPosition : option Position) : M bool :=
  dirty <- Cursor_isDirty this ;;
  if dirty
  then
    _ <- Cursor_assertCurrentRecord this ;;
    position <- Cursor_getPosition this ;;
    notCancelled <- Cursor_dispatchEvent this
                      (MovementEvent BEFORE_DISCARD position opt_newPosition) ;;
    if negb notCancelled
    then throw DiscardBlocked
    else
      _ <- discard this None ;;
      ret true
  else ret true.

Definition Cursor_setPositionWith
    (discard : nat -> option Position -> M unit)
    (this : nat) (newPosition : Position) : M unit :=
  _ <- Cursor_assertValidPosition this newPosition ;;
  _ <- Cursor_maybeDiscardWith discard this (Some newPosition) ;;
  position <- Cursor_getPosition this ;;
  if bool_decide (newPosition <> position)
  then Cursor_moveInternal this newPosition
  else ret tt.

(** [this.getRowCount() - 1] as a position. *)
Definition lastRow (rowCount : option Z) : Position :=
  match rowCount with
  | Some n => Index (n - 1)
  | None => Index (-1)
  end.

Definition Cursor_discardWith (setPosition : nat -> Position -> M unit)
    (this : nat) (opt_newPosition : option Position) : M unit :=
  _ <- Cursor_assertCurrentRecord this ;;
  dirty <- Cursor_isDirty this ;;
  if negb dirty then ret tt
  else
    copy <- Cursor_getLoadedValues this ;;
    _ <- updateCursor this (withCurrentRecordValues (Some copy)) ;;
    position <- Cursor_getPosition this ;;
    _ <- Cursor_dispatchEvent this
           (MovementEvent DISCARD position opt_newPosition) ;;
    position <- Cursor_getPosition this ;;
    _ <- (if bool_decide (position = NEW)
          then
            rowCount <- Cursor_getRowCount this ;;
            setPosition this (lastRow rowCount)
          else ret tt) ;;
    position <- Cursor_getPosition this ;;
    _ <- Cursor_dispatchEvent this (RowEvent MODIFIED position) ;;
    ret tt.

Fixpoint Cursor_discard_fuel (fuel : nat) (this : nat)
    (opt_newPosition : option Position) : M unit :=
  match fuel with
  | O => outOfFuel
  | S fuel' =>
      Cursor_discardWith (Cursor_setPositionWith (Cursor_discard_fuel fuel'))
        this opt_newPosition
  end.

Definition Cursor_discard : nat -> option Position -> M unit :=
  Cursor_discard_fuel 2.

Definition Cursor_maybeDiscard : nat -> option Position -> M bool :=
  Cursor_maybeDiscardWith Cursor_discard.

Definition Cursor_setPosition : nat -> Position -> M unit :=
  Cursor_setPositionWith Cursor_discard.

(** *** The moves *)

(** The first half of moveRelative: the local [newPosition], computed
    from [this.position_], the row count and the distance, then clamped. *)
Definition moveRelativeTarget (position : Position) (rowCount : option Z)
    (numRowsToMove : Z) : Outcome Position :=
  let resolved : Outcome Position :=
    if numRowsToMove =? 0 then Return position
    else
      match position with
      | BOF =>
          if numRowsToMove <? 0 then Throw IllegalMove
          else Return (Index (numRowsToMove - 1))
      | EOF | NEW =>
          if numRowsToMove >? 0 then Throw IllegalMove
          else
            match rowCount with
            | None => Throw IllegalMove
            | Some n => Return (Index (n + numRowsToMove))
            end
      | Index p => Return (Index (p + numRowsToMove))
      end in
  match resolved with
  | Return (Index t) =>
      if t <? 0 then Return BOF
      else
        match rowCount with
        | Some n => if t >=? n then Return EOF else Return (Index t)
        | None => Return (Index t)
        end
  | r => r
  end.

Definition Cursor_moveRelative (this : nat) (numRowsToMove : Z) : M bool :=
  position <- Cursor_getPosition this ;;
  rowCount <- Cursor_getRowCount this ;;
  newPosition <- liftOutcome (moveRelativeTarget position rowCount numRowsToMove) ;;
  _ <- Cursor_assertValidPosition this newPosition ;;
  _ <- Cursor_maybeDiscard this (Some newPosition) ;;
  _ <- Cursor_dispatchEvent this
         {| evType := MOVE_FORWARD; evPosition := None;
            evNewPosition := Some newPosition;
            evNumRows := Some numRowsToMove |} ;;
  _ <- Cursor_setPosition this newPosition ;;
  ret true.

Definition Cursor_moveFirst (this : nat) : M unit :=
  rowCount <- Cursor_getRowCount this ;;
  let newPosition :=
    match rowCount with
    | Some 0 => EOF
    | _ => Index 0
    end in
  _ <- Cursor_dispatchEvent this
         {| evType := MOVE_FIRST; evPosition := None;
            evNewPosition := Some newPosition; evNumRows := None |} ;;
  Cursor_setPosition this newPosition.

Definition Cursor_moveLast (this : nat) : M unit :=
  rowCount <- Cursor_getRowCount this ;;
  match rowCount with
  | None => throw IllegalMove
  | Some n =>
      let newPosition := Index (n - 1) in
      _ <- Cursor_dispatchEvent this
             {| evType := MOVE_LAST; evPosition := None;
                evNewPosition := Some newPosition; evNumRows := None |} ;;
      Cursor_setPosition this newPosition
  end.

Definition Cursor_moveNew (this : nat) : M unit :=
  let newPosition := NEW in
  _ <- Cursor_dispatchEvent this
         {| evType := CREATE_NEW; evPosition := None;
            evNewPosition := Some newPosition; evNumRows := None |} ;;
  Cursor_setPosition this newPosition.

(** *** save *)

(** The handler of the [catch] in save. *)
Definition saveCatch (this : nat) (p : Z) (values : loc)
    (opt_attemptedPosition : option Position) (exception : Exception)
    : M unit :=
  match exception with
  | ConcurrentModification _ =>
      position <- Cursor_getPosition this ;;
      let event :=
        match opt_attemptedPosition with
        | Some attempted =>
            MovementEvent BEFORE_OVERWRITE position (Some attempted)
        | None => RowEvent BEFORE_OVERWRITE position
        end in
      notCancelled <- Cursor_dispatchEvent this event ;;
      if negb notCancelled
      then throw OverwriteBlocked
      else
        _ <- SimpleDatasource_replace p values ;;
        position <- Cursor_getPosition this ;;
        _ <- Cursor_dispatchEvent this (RowEvent OVERWRITE position) ;;
        ret tt
  | _ => throw exception
  end.

(** After assertCurrentRecord the position is NEW or a row index, and
    the two record fields are objects. *)
Definition Cursor_save (this : nat)
    (opt_suppressMoveToEvent opt_forceOverwrite : bool)
    (opt_attemptedPosition : option Position) : M Position :=
  _ <- Cursor_assertCurrentRecord this ;;
  c <- getCursor this ;;
  newPosition <-
    match position_ c with
    | NEW =>
        values <- requireObject (currentRecordValues_ c) ;;
        pos <- SimpleDatasource_add values ;;
        ret (Index pos)
    | Index p =>
        values <- requireObject (currentRecordValues_ c) ;;
        _ <- (if opt_forceOverwrite
              then SimpleDatasource_replace p values
              else
                asLoaded <- requireObject (currentRecordAsLoaded_ c) ;;
                tryCatch
                  (Datasource_atomicReplace p asLoaded values)
                  (saveCatch this p values opt_attemptedPosition)) ;;
        ret (Index p)
    | BOF | EOF => throw NoCurrentRecord
    end ;;
  _ <- Cursor_reloadRecord this ;;
  _ <- Cursor_dispatchEvent this (RowEvent SAVE newPosition) ;;
  position <- Cursor_getPosition this ;;
  _ <- (if bool_decide (newPosition <> position) &&
           negb opt_suppressMoveToEvent
        then Cursor_moveInternal this newPosition
        else ret tt) ;;
  ret newPosition.

(** ** Observations used by the statements *)

(** [getCount()] *)
Definition rowCount (w : World) : Z :=
  Z.of_nat (length (data_ (dataSource_ w))).

(** The records of the Datasource, by value. *)
Definition records (w : World) : list JsObject :=
  deref (heap w) <$> data_ (dataSource_ w).

(** [getPosition()] of Cursor [this]. *)
Definition positionOf (w : World) (this : nat) : option Position :=
  position_ <$> cursors w !! this.

(** [getCurrentValues()] by value, without the copy. *)
Definition currentValuesOf (w : World) (this : nat) : option JsObject :=
  match cursors w !! this with
  | Some c => deref (heap w) <$> currentRecordValues_ c
  | None => None
  end.

(** The events Cursor [this] has dispatched, oldest first. *)
Definition dispatchedBy (w : World) (this : nat) : list CursorEvent :=
  default [] (dispatched <$> cursors w !! this).

(** The state of Cursor [this], or of a new Cursor when there is none. *)
Definition cursorState (w : World) (this : nat) : Cursor :=
  default initialCursor (cursors w !! this).

(** The answer of dispatchEvent for the listeners of a Cursor. *)
Definition notCancelled (c : Cursor) (e : CursorEvent) : bool :=
  forallb (fun l => handler l e)
    (filter (fun l => listenedType l = evType e) (listeners_ c)).

(** Some listener of Cursor [c] cancels the event [e]. *)
Definition cancelledBy (c : Cursor) (e : CursorEvent) : Prop :=
  exists l, In l (listeners_ c) /\ listenedType l = evType e /\
            handler l e = false.

(** A difference at key [k] between two records, as atomicReplace looks
    for it: [k] is owned by one of them and the values read at [k] are
    loosely unequal. *)
Definition differAt (expected actual : JsObject) (k : string) : Prop :=
  (is_Some (expected !! k) \/ is_Some (actual !! k)) /\
  loose_eq (getProp expected k) (getProp actual k) = false.

(** A difference at key [k] as isDirty looks for it: [k] is owned by one
    side only, or by both with loosely unequal values. *)
Definition dirtyAt (newValues oldValues : JsObject) (k : string) : Prop :=
  (is_Some (newValues !! k) /\ oldValues !! k = None) \/
  (newValues !! k = None /\ is_Some (oldValues !! k)) \/
  (is_Some (newValues !! k) /\ is_Some (oldValues !! k) /\
   loose_eq (getProp oldValues k) (getProp newValues k) = false).

(** The answer of isDirty for a Cursor in state [c] over the store [h]. *)
Definition dirtyOf (h : list JsObject) (c : Cursor) : Outcome bool :=
  match currentRecordValues_ c with
  | None => Return false
  | Some newValues =>
      match currentRecordAsLoaded_ c with
      | Some oldValues =>
          Return (isDirtyLoops (deref h newValues) (deref h oldValues))
      | None =>
          match ownKeys (deref h newValues) with
          | [] => Return false
          | _ :: _ => Throw TypeError
          end
      end
  end.

(** The clamping of a resolved target, in the words of the
    specification: below zero is BOF, at or beyond a known row count is
    EOF. *)
Definition spec_clamp (rowCount : option Z) (target : Z) : Position :=
  if target <? 0 then BOF
  else
    match rowCount with
    | Some n => if n <=? target then EOF else Index target
    | None => Index target
    end.

(** ** Invariants *)

(** The position is a sentinel or a row index of the Datasource. *)
Definition validPosition (rowCount : Z) (position : Position) : Prop :=
  match position with
  | Index p => 0 <= p < rowCount
  | _ => True
  end.

#[global] Instance validPosition_dec rowCount position :
  Decision (validPosition rowCount position).
Proof. destruct position; simpl; apply _. Defined.

(** The position is not a row index at or beyond the row count (where
    [remove] can leave a Cursor, which it does not notify). *)
Definition belowRowCount (rowCount : Z) (position : Position) : Prop :=
  match position with
  | Index p => p < rowCount
  | _ => True
  end.

#[global] Instance belowRowCount_dec rowCount position :
  Decision (belowRowCount rowCount position).
Proof. destruct position; simpl; apply _. Defined.

(** The data-model invariant of a Cursor: at BOF and EOF there is no
    record, at NEW and on a row both record fields are set. *)
Definition recordInvariant (c : Cursor) : Prop :=
  match position_ c with
  | BOF | EOF =>
      currentRecordValues_ c = None /\ currentRecordAsLoaded_ c = None
  | NEW | Index _ =>
      is_Some (currentRecordValues_ c) /\ is_Some (currentRecordAsLoaded_ c)
  end.

#[global] Instance recordInvariant_dec c : Decision (recordInvariant c).
Proof. unfold recordInvariant. destruct (position_ c); apply _. Defined.

(** Every reference held by the Datasource is to a live object. *)
Definition dataAllocated (w : World) : Prop :=
  Forall (fun l => (l < length (heap w))%nat) (data_ (dataSource_ w)).

#[global] Instance dataAllocated_dec w : Decision (dataAllocated w).
Proof. unfold dataAllocated. apply _. Defined.

(** The value is not loosely unequal to itself: it is not NaN. *)
Definition selfEqual (v : Value) : Prop := loose_neq v v = false.

(** No property of the object holds NaN. *)
Definition holdsNoNaN (o : JsObject) : Prop :=
  map_Forall (fun _ v => selfEqual v) o.

#[global] Instance holdsNoNaN_dec o : Decision (holdsNoNaN o).
Proof. unfold holdsNoNaN, selfEqual. apply _. Defined.

(** No record of the store holds NaN. *)
Definition noNaN (w : World) : Prop := Forall holdsNoNaN (heap w).

#[global] Instance noNaN_dec w : Decision (noNaN w).
Proof. unfold noNaN. apply _. Defined.

(** The method brings no NaN into the store, however it ends. *)
Definition keepsNoNaN {A} (m : M A) : Prop :=
  forall w o w', noNaN w -> m w = (o, w') -> noNaN w'.

(** ** The worlds that the methods produce *)

(** The Cursor after it has dispatched [e]. *)
Definition logged (e : CursorEvent) (c : Cursor) : Cursor :=
  withDispatched (dispatched c ++ [e]) c.

Definition setCursor (this : nat) (c : Cursor) (w : World) : World :=
  withCursors (<[this := c]> (cursors w)) w.

Definition withRecords (values asLoaded : option loc) (c : Cursor) : Cursor :=
  withCurrentRecordAsLoaded asLoaded (withCurrentRecordValues values c).

(** What reloadRecord copies from a record: its values at the columns. *)
Definition project (columns : list Column) (record : JsObject) : JsObject :=
  fold_left
    (fun o column => <[name column := getProp record (name column)]> o)
    columns ∅.

(** The world after reloadRecord of Cursor [this], whose state was [c],
    on a row whose stored object is [row]. *)
Definition reloaded (this : nat) (c : Cursor) (row : JsObject) (w : World)
    : World :=
  let n := length (heap w) in
  let o := project (columns_ (dataSource_ w)) row in
  {| heap := heap w ++ [o; o; row];
     dataSource_ := dataSource_ w;
     cursors := <[this := withRecords (Some n) (Some (S n)) c]> (cursors w) |}.

(** The world after [replace(rowIndex, newRecord)]. *)
Definition replaced (rowIndex : Z) (newRecord : loc) (w : World) : World :=
  {| heap := heap w ++ [deref (heap w) newRecord];
     dataSource_ :=
       {| columns_ := columns_ (dataSource_ w);
          data_ := splice (Z.to_nat rowIndex) 1 [length (heap w)]
                     (data_ (dataSource_ w));
          dsDispatched :=
            dsDispatched (dataSource_ w) ++ [DsRowEvent ROWS_UPDATE [rowIndex]] |};
     cursors := cursors w |}.

(** The world after the Datasource has dispatched [e] to no effect on
    the Cursors. *)
Definition dsLogged (e : DatasourceRowEvent) (w : World) : World :=
  withDataSource
    {| columns_ := columns_ (dataSource_ w);
       data_ := data_ (dataSource_ w);
       dsDispatched := dsDispatched (dataSource_ w) ++ [e] |} w.

(** The world after [add(newRecord)]. *)
Definition added (newRecord : nat) (w : World) : World :=
  {| heap := heap w ++ [deref (heap w) newRecord];
     dataSource_ :=
       {| columns_ := columns_ (dataSource_ w);
          data_ := data_ (dataSource_ w) ++ [length (heap w)];
          dsDispatched :=
            dsDispatched (dataSource_ w)
              ++ [DsRowEvent ROWS_INSERT [rowCount w]] |};
     cursors := cursors w |}.

(** What reloadRecord leaves behind. *)
Record reloadedFrom (this : nat) (c : Cursor) (w w' : World) (c' : Cursor)
    : Prop := {
  reloaded_lookup : cursors w' !! this = Some c';
  reloaded_position : position_ c' = position_ c;
  reloaded_listeners : listeners_ c' = listeners_ c;
  reloaded_dispatched : dispatched c' = dispatched c;
  reloaded_clean : noNaN w -> dirtyOf (heap w') c' = Return false;
  reloaded_invariant : recordInvariant c';
  reloaded_dataSource : dataSource_ w' = dataSource_ w;
  reloaded_heap : exists t, heap w' = heap w ++ t;
  reloaded_others : forall other, other <> this ->
    cursors w' !! other = cursors w !! other;
  reloaded_length : length (cursors w') = length (cursors w)
}.

(** What a move to a valid position leaves behind. *)
Record movedTo (this : nat) (c : Cursor) (newPosition : Position)
    (w w' : World) (c' : Cursor) : Prop := {
  moved_lookup : cursors w' !! this = Some c';
  moved_position : position_ c' = newPosition;
  moved_listeners : listeners_ c' = listeners_ c;
  moved_dispatched :
    dispatched c' =
      dispatched c ++ [MovementEvent MOVE_TO (position_ c) (Some newPosition)];
  moved_clean : noNaN w -> dirtyOf (heap w') c' = Return false;
  moved_invariant : recordInvariant c';
  moved_dataSource : dataSource_ w' = dataSource_ w;
  moved_heap : exists t, heap w' = heap w ++ t;
  moved_others : forall other, other <> this ->
    cursors w' !! other = cursors w !! other;
  moved_length : length (cursors w') = length (cursors w)
}.

End Model.

Notation "x <- m ;; k" := (bind m (fun x => k))
  (at level 100, m at next level, k at level 200, right associativity).

Abbreviation JsObject := (gmap string Value).

(** ** A fragment of the language

    The values of the tests and of the examples: undefined, null, the
    booleans, the integers, NaN, the strings, and the members of
    Object.prototype ([VBuiltin k] is the object that Object.prototype
    holds at [k]). *)
Inductive JsValue : Type :=
  | VUndefined
  | VNull
  | VBoolean (b : bool)
  | VNumber (n : Z)
  | VNaN
  | VString (s : string)
  | VBuiltin (k : string).

#[global] Instance JsValue_eq_dec : EqDecision JsValue.
Proof. solve_decision. Defined.

Fixpoint digitsToNumber (s : string) (acc : Z) : option Z :=
  match s with
  | EmptyString => Some acc
  | String c s' =>
      let n := Z.of_nat (Ascii.nat_of_ascii c) in
      if (48 <=? n) && (n <=? 57)
      then digitsToNumber s' (acc * 10 + (n - 48))
      else None
  end.

(** ToNumber on a string, as far as the fragment goes: a signed decimal
    integer converts to its value and the empty string to 0; any other
    string is taken for NaN ([None]).  That is the conversion of the
    language on the strings of the tests; the literals with white space,
    a fraction, an exponent or a radix prefix are outside the fragment. *)
Definition StringToNumber (s : string) : option Z :=
  match s with
  | EmptyString => Some 0
  | String "-"%char (String c r) => Z.opp <$> digitsToNumber (String c r) 0
  | String "+"%char (String c r) => digitsToNumber (String c r) 0
  | _ => digitsToNumber s 0
  end.

Definition BooleanToNumber (b : bool) : Z := if b then 1 else 0.

(** [n == y] for an integer [n]. *)
Definition numberLooseEq (n : Z) (y : JsValue) : bool :=
  match y with
  | VNumber m => n =? m
  | VString s => match StringToNumber s with Some m => n =? m | None => false end
  | VBoolean b => n =? BooleanToNumber b
  | VUndefined | VNull | VNaN | VBuiltin _ => false
  end.

(** The abstract equality comparison [x == y] on the fragment.  NaN is
    equal to nothing, itself included; an object is equal to itself, and
    here to no primitive value. *)
Definition JsValue_loose_eq (x y : JsValue) : bool :=
  match x, y with
  | VUndefined, VUndefined | VUndefined, VNull
  | VNull, VUndefined | VNull, VNull => true
  | VNumber a, _ => numberLooseEq a y
  | VBoolean a, _ => numberLooseEq (BooleanToNumber a) y
  | VString a, VString b => String.eqb a b
  | VString _, VNumber b => numberLooseEq b x
  | VString _, VBoolean b => numberLooseEq (BooleanToNumber b) x
  | VBuiltin a, VBuiltin b => String.eqb a b
  | _, _ => false
  end.

(** [x != y] *)
Definition JsValue_loose_neq (x y : JsValue) : bool :=
  negb (JsValue_loose_eq x y).

(** The names that Object.prototype defines. *)
Definition ObjectPrototypeNames : list string :=
  [ "constructor"; "hasOwnProperty"; "isPrototypeOf";
    "propertyIsEnumerable"; "toLocaleString"; "toString"; "valueOf";
    "__defineGetter__"; "__defineSetter__"; "__lookupGetter__";
    "__lookupSetter__"; "__proto__" ].

(** [Object.prototype[k]] *)
Definition ObjectPrototype (k : string) : JsValue :=
  if existsb (String.eqb k) ObjectPrototypeNames
  then VBuiltin k
  else VUndefined.

Lemma ObjectPrototype_loose_eq k :
  JsValue_loose_neq (ObjectPrototype k) (ObjectPrototype k) = false.
Proof.
  unfold ObjectPrototype, JsValue_loose_neq.
  destruct (existsb (String.eqb k) ObjectPrototypeNames); simpl;
    [|reflexivity].
  by rewrite String.eqb_refl.
Qed.

Lemma VUndefined_loose_eq : JsValue_loose_neq VUndefined VUndefined = false.
Proof. reflexivity. Qed.

Lemma VNull_loose_eq : JsValue_loose_neq VNull VUndefined = false.
Proof. reflexivity. Qed.

Definition JsValues : Values := JsValue.

Definition JsFragment : @JavaScript JsValues :=
  {| undefined := VUndefined;
     null := VNull;
     loose_neq := JsValue_loose_neq;
     inherited := ObjectPrototype;
     undefined_loose_eq := VUndefined_loose_eq;
     null_loose_eq := VNull_loose_eq;
     inherited_loose_eq := ObjectPrototype_loose_eq |}.

(** ** The data of the tests *)

Section TestData.

#[local] Existing Instance JsValues.
#[local] Existing Instance JsFragment.

(** getTestDataSource() of Cursor_test.js *)
Definition testColumns : list Column :=
  [ {| name := "id"; caption := "ID" |};
    {| name := "name"; caption := "Name" |} ].

Definition testRecord (id : Value) (n : Value) : JsObject :=
  <["id" := id]> (<["name" := n]> ∅).

Definition getTestDataSource : World :=
  SimpleDatasource_new testColumns
    [ testRecord (VNumber 1) (VString "John");
      testRecord (VNumber 2) (VString "James");
      testRecord (VNumber 5) (VString "Peter") ].

(** The world after running [m]. *)
Definition after {A} (m : M A) (w : World) : World := snd (m w).

(** An object literal [{k: v, ...}]. *)
Definition objectLiteral (o : JsObject) : M nat :=
  fun w => (Return (length (heap w)), withHeap (heap w ++ [o]) w).

Definition blockEvent (e : CursorEvent) : bool := false.

Definition allowEvent (e : CursorEvent) : bool := true.

(** A Datasource with the test columns and no row, and one Cursor on it. *)
Definition emptyWithCursor : World :=
  after Cursor_new (SimpleDatasource_new testColumns []).

(** The test Datasource with one Cursor on it, at BOF. *)
Definition testWithCursor : World := after Cursor_new getTestDataSource.


(** test_cursor_discard: the Cursor is on row 1 and its name has been
    changed. *)
Definition editedOnRow1 : World :=
  after (_ <- Cursor_setPosition 0 (Index 1) ;;
         Cursor_setFieldValue 0 "name" (VString "Joyce")) testWithCursor.

(** test_cursor_positioning_after_insert, with an edit: the Cursor is on
    row 2 and its name has been changed. *)
Definition editedOnRow2 : World :=
  after (_ <- Cursor_setPosition 0 (Index 2) ;;
         Cursor_setFieldValue 0 "name" (VString "Stuart")) testWithCursor.

Definition insertedBefore : World :=
  after (n <- objectLiteral (testRecord (VString "hello") (VString "world")) ;;
         SimpleDatasource_insert 0 n) editedOnRow2.

(** assert_cursor_new_record_creation: a Cursor at NEW with both fields
    set. *)
Definition newRecordEdited : World :=
  after (_ <- Cursor_addEventListener 0 BEFORE_DISCARD blockEvent ;;
         _ <- Cursor_setPosition 0 NEW ;;
         _ <- Cursor_setFieldValue 0 "id" (VString "foo") ;;
         Cursor_setFieldValue 0 "name" (VString "bar")) testWithCursor.

(** A Cursor at NEW over the empty Datasource, with a field set. *)
Definition editedNewOnEmpty : World :=
  after (_ <- Cursor_setPosition 0 NEW ;;
         Cursor_setFieldValue 0 "id" (VString "foo")) emptyWithCursor.

(** A Cursor at NEW whose name has been set to undefined. *)
Definition newWithUndefinedName : World :=
  after (_ <- Cursor_setPosition 0 NEW ;;
         Cursor_setFieldValue 0 "name" VUndefined) testWithCursor.

(** test_save_on_modified_record_sends_event: two Cursors on row 1, both
    with an edited name; the first has saved. *)
Definition twoCursorsFirstSaved : World :=
  after (c1 <- Cursor_new ;;
         c2 <- Cursor_new ;;
         _ <- Cursor_setPosition c1 (Index 1) ;;
         _ <- Cursor_setPosition c2 (Index 1) ;;
         _ <- Cursor_setFieldValue c1 "name" (VString "Stuart") ;;
         _ <- Cursor_setFieldValue c2 "name" (VString "Jonathan") ;;
         Cursor_save c1 false false None) getTestDataSource.

Definition secondBlocksOverwrite : World :=
  after (Cursor_addEventListener 1 BEFORE_OVERWRITE blockEvent)
    twoCursorsFirstSaved.

Definition secondAllowsOverwrite : World :=
  after (Cursor_addEventListener 1 BEFORE_OVERWRITE allowEvent)
    twoCursorsFirstSaved.

(** The test Datasource with two records made by the caller: at 3 a
    record equal to row 1, at 4 the new values. *)
Definition withMatchingExpected : World :=
  after (_ <- objectLiteral (testRecord (VNumber 2) (VString "James")) ;;
         objectLiteral (testRecord (VNumber 2) (VString "Jim")))
    getTestDataSource.

(** The same with an expected record that row 1 does not match. *)
Definition withStaleExpected : World :=
  after (_ <- objectLiteral (testRecord (VNumber 2) (VString "Jack")) ;;
         objectLiteral (testRecord (VNumber 2) (VString "Jim")))
    getTestDataSource.

(** The same with an expected record that owns one more key, holding
    undefined. *)
Definition withExtraUndefinedKey : World :=
  after (_ <- objectLiteral
                (<["extra" := VUndefined]>
                   (testRecord (VNumber 2) (VString "James"))) ;;
         objectLiteral (testRecord (VNumber 2) (VString "Jim")))
    getTestDataSource.

(** The same with an expected record that owns the key toString, holding
    undefined. *)
Definition withUndefinedToString : World :=
  after (_ <- objectLiteral
                (<["toString" := VUndefined]>
                   (testRecord (VNumber 2) (VString "James"))) ;;
         objectLiteral (testRecord (VNumber 2) (VString "Jim")))
    getTestDataSource.


(** Two Cursors: the first on row 2 with row 0 then removed, the second
    at NEW with both fields set. *)
Definition newBesideStale : World :=
  after (c1 <- Cursor_new ;;
         c2 <- Cursor_new ;;
         _ <- Cursor_setPosition c1 (Index 2) ;;
         _ <- SimpleDatasource_remove 0 ;;
         _ <- Cursor_setPosition c2 NEW ;;
         _ <- Cursor_setFieldValue c2 "id" (VString "foo") ;;
         Cursor_setFieldValue c2 "name" (VString "bar")) getTestDataSource.

(** A Cursor on row 1 whose id has been set to NaN. *)
Definition editedToNaN : World :=
  after (_ <- Cursor_setPosition 0 (Index 1) ;;
         Cursor_setFieldValue 0 "id" VNaN) testWithCursor.

(** The same after save(). *)
Definition savedNaN : World :=
  after (Cursor_save 0 false false None) editedToNaN.

End TestData.

(** * Properties *)

Create HintDb keeps.

Section Properties.

Context {jsValues : Values} {js : JavaScript}.

(** ** Running the monad *)

Lemma run_bind {A B} (m : M A) (k : A -> M B) w :
  bind m k w =
    match m w with
    | (Return a, w') => k a w'
    | (Throw e, w') => (Throw e, w')
    | (OutOfFuel, w') => (OutOfFuel, w')
    end.
Proof. reflexivity. Qed.

Lemma bind_Return {A B} (m : M A) (k : A -> M B) w a w' :
  m w = (Return a, w') -> bind m k w = k a w'.
Proof. intros H. by rewrite run_bind, H. Qed.

Lemma bind_Throw {A B} (m : M A) (k : A -> M B) w e w' :
  m w = (Throw e, w') -> bind m k w = (Throw e, w').
Proof. intros H. by rewrite run_bind, H. Qed.

Lemma alter_at {A} (f : A -> A) (l : list A) i x :
  l !! i = Some x -> alter f i l = <[i := f x]> l.
Proof.
  intros H. apply list_eq. intros j.
  destruct (decide (i = j)) as [->|Hne].
  - rewrite list_lookup_alter_eq, H. simpl. symmetry.
    apply list_lookup_insert_eq. by eapply lookup_lt_Some.
  - by rewrite list_lookup_alter_ne, list_lookup_insert_ne.
Qed.

Lemma getCursor_run w this c :
  cursors w !! this = Some c -> getCursor this w = (Return c, w).
Proof. intros H. unfold getCursor. by rewrite H. Qed.

Lemma updateCursor_run w this f c :
  cursors w !! this = Some c ->
  updateCursor this f w = (Return tt, setCursor this (f c) w).
Proof.
  intros H. unfold updateCursor, modify, setCursor.
  by rewrite (alter_at _ _ _ _ H).
Qed.

Lemma setCursor_lookup w this c c0 :
  cursors w !! this = Some c0 ->
  cursors (setCursor this c w) !! this = Some c.
Proof.
  intros H. simpl. apply list_lookup_insert_eq. by eapply lookup_lt_Some.
Qed.

Lemma setCursor_lookup_ne w this other c :
  this <> other ->
  cursors (setCursor this c w) !! other = cursors w !! other.
Proof. intros H. simpl. by apply list_lookup_insert_ne. Qed.

Lemma setCursor_setCursor w this c c' :
  setCursor this c (setCursor this c' w) = setCursor this c w.
Proof. unfold setCursor, withCursors. simpl. by rewrite list_insert_insert_eq. Qed.

Lemma setCursor_id w this c :
  cursors w !! this = Some c -> setCursor this c w = w.
Proof.
  intros H. unfold setCursor, withCursors. rewrite list_insert_id by done.
  by destruct w.
Qed.

Lemma Cursor_getPosition_run w this c :
  cursors w !! this = Some c ->
  Cursor_getPosition this w = (Return (position_ c), w).
Proof.
  intros H. unfold Cursor_getPosition.
  by rewrite (bind_Return _ _ _ _ _ (getCursor_run _ _ _ H)).
Qed.

Lemma Cursor_dispatchEvent_run w this c e :
  cursors w !! this = Some c ->
  Cursor_dispatchEvent this e w =
    (Return (notCancelled c e), setCursor this (logged e c) w).
Proof.
  intros H. unfold Cursor_dispatchEvent.
  rewrite (bind_Return _ _ _ _ _ (getCursor_run _ _ _ H)).
  by rewrite (bind_Return _ _ _ _ _ (updateCursor_run _ _ _ _ H)).
Qed.

Lemma Cursor_getRowCount_run w this :
  Cursor_getRowCount this w = (Return (Some (rowCount w)), w).
Proof. reflexivity. Qed.

Lemma Cursor_assertCurrentRecord_run w this c :
  cursors w !! this = Some c ->
  Cursor_assertCurrentRecord this w =
    (match position_ c with
     | BOF | EOF => Throw NoCurrentRecord
     | _ => Return tt
     end, w).
Proof.
  intros H. unfold Cursor_assertCurrentRecord.
  rewrite (bind_Return _ _ _ _ _ (getCursor_run _ _ _ H)).
  by destruct (position_ c).
Qed.

Lemma Cursor_assertValidPosition_valid w this position :
  validPosition (rowCount w) position ->
  Cursor_assertValidPosition this position w = (Return true, w).
Proof.
  intros H. unfold Cursor_assertValidPosition.
  rewrite (bind_Return _ _ _ _ _ (Cursor_getRowCount_run _ _)).
  destruct position; try reflexivity. simpl in H.
  replace (i >=? 0) with true by lia.
  replace (i <? rowCount w) with true by lia. reflexivity.
Qed.

Lemma Cursor_assertValidPosition_invalid w this p :
  ~ (0 <= p < rowCount w) ->
  Cursor_assertValidPosition this (Index p) w = (Throw IllegalMove, w).
Proof.
  intros H. unfold Cursor_assertValidPosition.
  rewrite (bind_Return _ _ _ _ _ (Cursor_getRowCount_run _ _)).
  destruct (p >=? 0) eqn:E1; [|reflexivity].
  destruct (p <? rowCount w) eqn:E2; [|reflexivity]. lia.
Qed.

Lemma Cursor_isDirty_run w this c values asLoaded :
  cursors w !! this = Some c ->
  currentRecordValues_ c = Some values ->
  currentRecordAsLoaded_ c = Some asLoaded ->
  Cursor_isDirty this w =
    (Return (isDirtyLoops (deref (heap w) values) (deref (heap w) asLoaded)), w).
Proof.
  intros H Hv Hl. unfold Cursor_isDirty.
  rewrite (bind_Return _ _ _ _ _ (getCursor_run _ _ _ H)).
  by rewrite Hv, Hl.
Qed.

Lemma Cursor_isDirty_no_record w this c :
  cursors w !! this = Some c ->
  currentRecordValues_ c = None ->
  Cursor_isDirty this w = (Return false, w).
Proof.
  intros H Hv. unfold Cursor_isDirty.
  rewrite (bind_Return _ _ _ _ _ (getCursor_run _ _ _ H)).
  by rewrite Hv.
Qed.

(** ** moveLast on an empty Datasource *)

Lemma moveLast_empty w this c :
  cursors w !! this = Some c ->
  rowCount w = 0 ->
  Cursor_moveLast this w =
    (Throw IllegalMove,
     setCursor this
       (logged {| evType := MOVE_LAST; evPosition := None;
                  evNewPosition := Some (Index (-1)); evNumRows := None |} c) w).
Proof.
  intros Hc Hd. unfold Cursor_moveLast.
  rewrite (bind_Return _ _ _ _ _ (Cursor_getRowCount_run _ _)), Hd. simpl.
  rewrite (bind_Return _ _ _ _ _ (Cursor_dispatchEvent_run _ _ _ _ Hc)).
  unfold Cursor_setPosition, Cursor_setPositionWith.
  erewrite bind_Throw; [reflexivity|].
  apply Cursor_assertValidPosition_invalid.
  unfold rowCount in *. simpl. lia.
Qed.

(** ** The store *)

Lemma deref_app_l h t l : (l < length h)%nat -> deref (h ++ t) l = deref h l.
Proof. intros H. unfold deref. by rewrite lookup_app_l. Qed.

Lemma deref_app_r h t i : deref (h ++ t) (length h + i) = deref t i.
Proof.
  unfold deref. rewrite lookup_app_r by lia.
  by replace (length h + i - length h)%nat with i by lia.
Qed.

Lemma deref_app_at h t l i :
  l = (length h + i)%nat -> deref (h ++ t) l = deref t i.
Proof. intros ->. apply deref_app_r. Qed.

Lemma deref_snoc h o : deref (h ++ [o]) (length h) = o.
Proof. by rewrite (deref_app_at h _ _ 0%nat) by lia. Qed.

Lemma deref_app_empty h l : deref (h ++ [∅; ∅]) l = deref h l.
Proof.
  destruct (decide (l < length h)%nat) as [Hl|Hl].
  - by apply deref_app_l.
  - rewrite (deref_app_at h _ l (l - length h)%nat) by lia.
    unfold deref at 2. rewrite lookup_ge_None_2 by lia. simpl.
    unfold deref.
    destruct (l - length h)%nat as [|[|[|k]]]; reflexivity.
Qed.

Lemma insert_app_at {A} (h t : list A) l i x :
  l = (length h + i)%nat -> <[l := x]> (h ++ t) = h ++ <[i := x]> t.
Proof. intros ->. apply insert_app_r. Qed.

Lemma SimpleDatasource_get_run w rowIndex row :
  0 <= rowIndex ->
  data_ (dataSource_ w) !! Z.to_nat rowIndex = Some row ->
  SimpleDatasource_get rowIndex w =
    (Return (length (heap w)),
     withHeap (heap w ++ [deref (heap w) row]) w).
Proof.
  intros H0 Hrow. pose proof (lookup_lt_Some _ _ _ Hrow) as Hlt.
  unfold SimpleDatasource_get, Datasource_assertValidRow.
  replace (rowIndex <? 0) with false by lia.
  rewrite !run_bind. unfold gets at 1. cbv beta iota.
  replace (rowIndex >? Z.of_nat (length (data_ (dataSource_ w))) - 1)
    with false by lia.
  unfold ret at 1. cbv beta iota. rewrite run_bind. unfold gets at 1.
  cbv beta iota. rewrite run_bind, Hrow. reflexivity.
Qed.

Lemma SimpleDatasource_get_invalid w rowIndex :
  ~ (0 <= rowIndex < rowCount w) ->
  SimpleDatasource_get rowIndex w = (Throw NoSuchRecord, w).
Proof.
  intros H. unfold SimpleDatasource_get, Datasource_assertValidRow, rowCount in *.
  destruct (rowIndex <? 0) eqn:E; [reflexivity|].
  rewrite !run_bind. unfold gets at 1. cbv beta iota.
  replace (rowIndex >? Z.of_nat (length (data_ (dataSource_ w))) - 1)
    with true by lia.
  reflexivity.
Qed.

(** ** reloadRecord *)

Lemma reloadRecord_loop columns : forall (h : list JsObject) a b r w,
  heap w = h ++ [a; b; r] ->
  forEach (fun column =>
    v <- readProp (S (S (length h))) (name column) ;;
    _ <- writeProp (S (length h)) (name column) v ;;
    writeProp (length h) (name column) v) columns w =
  (Return tt,
   withHeap
     (h ++ [fold_left (fun o column => <[name column := getProp r (name column)]> o) columns a;
            fold_left (fun o column => <[name column := getProp r (name column)]> o) columns b;
            r]) w).
Proof.
  induction columns as [|column columns IH]; intros h a b r w Hw.
  - simpl. unfold ret, withHeap. rewrite <- Hw. by destruct w.
  - simpl forEach. rewrite run_bind.
    unfold readProp at 1, writeProp at 1, writeProp at 1.
    rewrite !run_bind. unfold gets at 1, modify at 1. cbv beta iota.
    rewrite run_bind. unfold modify at 1. cbv beta iota.
    simpl heap. rewrite Hw.
    rewrite (deref_app_at h _ (S (S (length h))) 2%nat) by lia.
    rewrite (deref_app_at h _ (S (length h)) 1%nat) by lia.
    rewrite (insert_app_at h _ (S (length h)) 1%nat) by lia.
    rewrite (deref_app_at h _ (length h) 0%nat) by lia.
    rewrite (insert_app_at h _ (length h) 0%nat) by lia.
    unfold deref. simpl.
    erewrite IH by reflexivity. reflexivity.
Qed.

Lemma Cursor_reloadRecord_sentinel w this c :
  cursors w !! this = Some c ->
  position_ c = BOF \/ position_ c = EOF ->
  Cursor_reloadRecord this w =
    (Return tt, setCursor this (withRecords None None c) w).
Proof.
  intros H Hp. unfold Cursor_reloadRecord.
  rewrite (bind_Return _ _ _ _ _ (getCursor_run _ _ _ H)).
  assert (E : forall k : M unit,
    (_ <- updateCursor this (withCurrentRecordValues None) ;; k) w =
    k (setCursor this (withCurrentRecordValues None c) w)).
  { intros k. by rewrite (bind_Return _ _ _ _ _ (updateCursor_run _ _ _ _ H)). }
  destruct Hp as [-> | ->]; rewrite E;
    erewrite updateCursor_run by (eapply setCursor_lookup; eauto);
    by rewrite setCursor_setCursor.
Qed.

Lemma Cursor_reloadRecord_NEW w this c :
  cursors w !! this = Some c ->
  position_ c = NEW ->
  Cursor_reloadRecord this w =
    (Return tt,
     {| heap := heap w ++ [∅; ∅];
        dataSource_ := dataSource_ w;
        cursors :=
          <[this := withRecords (Some (length (heap w)))
                      (Some (S (length (heap w)))) c]> (cursors w) |}).
Proof.
  intros H Hp. unfold Cursor_reloadRecord.
  rewrite (bind_Return _ _ _ _ _ (getCursor_run _ _ _ H)), Hp.
  rewrite run_bind. unfold newObject at 1. cbv beta iota.
  erewrite bind_Return by (apply updateCursor_run; exact H).
  rewrite run_bind. unfold newObject at 1. cbv beta iota.
  erewrite updateCursor_run by (eapply setCursor_lookup; exact H).
  unfold setCursor, withCursors, withHeap. simpl.
  rewrite list_insert_insert_eq, length_app, <- app_assoc. simpl.
  by replace (length (heap w) + 1)%nat with (S (length (heap w))) by lia.
Qed.

Lemma Cursor_reloadRecord_Index w this c p row :
  cursors w !! this = Some c ->
  position_ c = Index p ->
  0 <= p ->
  data_ (dataSource_ w) !! Z.to_nat p = Some row ->
  Cursor_reloadRecord this w =
    (Return tt, reloaded this c (deref (heap w) row) w).
Proof.
  intros H Hp H0 Hrow. unfold Cursor_reloadRecord.
  rewrite (bind_Return _ _ _ _ _ (getCursor_run _ _ _ H)), Hp.
  rewrite run_bind. unfold newObject at 1. cbv beta iota.
  erewrite bind_Return by (apply updateCursor_run; exact H).
  rewrite run_bind. unfold newObject at 1. cbv beta iota.
  erewrite bind_Return by (apply updateCursor_run; eapply setCursor_lookup; exact H).
  rewrite run_bind. unfold SimpleDatasource_getColumns at 1, gets at 1.
  cbv beta iota.
  erewrite bind_Return by (apply SimpleDatasource_get_run; [exact H0|exact Hrow]).
  simpl heap. rewrite !length_app. simpl length.
  replace (length (heap w) + 1 + 1)%nat with (S (S (length (heap w)))) by lia.
  replace (length (heap w) + 1)%nat with (S (length (heap w))) by lia.
  erewrite reloadRecord_loop; [|simpl; rewrite <- !app_assoc; reflexivity].
  unfold reloaded, project, setCursor, withCursors, withHeap. simpl.
  rewrite list_insert_insert_eq.
  by rewrite deref_app_empty.
Qed.

(** ** Loose equality and the two diffs *)

Lemma loose_eq_false x y : loose_eq x y = false <-> loose_neq x y = true.
Proof. unfold loose_eq. by destruct (loose_neq x y). Qed.

Lemma loose_eq_true x y : loose_eq x y = true <-> loose_neq x y = false.
Proof. unfold loose_eq. by destruct (loose_neq x y). Qed.

(** Loose equality is reflexive on the values that are not NaN. *)
Lemma loose_eq_refl v : selfEqual v -> loose_eq v v = true.
Proof. intros H. by apply loose_eq_true. Qed.

Lemma getProp_selfEqual o k : holdsNoNaN o -> selfEqual (getProp o k).
Proof.
  intros Ho. unfold getProp.
  destruct (o !! k) as [v|] eqn:E; simpl.
  - exact (Ho k v E).
  - apply inherited_loose_eq.
Qed.

Lemma holdsNoNaN_empty : holdsNoNaN (∅ : JsObject).
Proof. apply map_Forall_empty. Qed.

Lemma holdsNoNaN_insert o k v :
  holdsNoNaN o -> selfEqual v -> holdsNoNaN (<[k := v]> o).
Proof. intros Ho Hv. by apply map_Forall_insert_2. Qed.

Lemma holdsNoNaN_deref h l : Forall holdsNoNaN h -> holdsNoNaN (deref h l).
Proof.
  intros H. unfold deref. destruct (h !! l) as [o|] eqn:E; simpl.
  - rewrite Forall_forall in H. apply H. by eapply list_elem_of_lookup_2.
  - apply holdsNoNaN_empty.
Qed.

Lemma holdsNoNaN_project columns record :
  holdsNoNaN record -> holdsNoNaN (project columns record).
Proof.
  intros Hr. unfold project.
  assert (G : forall o, holdsNoNaN o ->
    holdsNoNaN (fold_left
      (fun o column => <[name column := getProp record (name column)]> o)
      columns o)).
  { induction columns as [|column columns IH]; intros o Ho; [exact Ho|].
    simpl. apply IH. apply holdsNoNaN_insert; [exact Ho|].
    by apply getProp_selfEqual. }
  apply G, holdsNoNaN_empty.
Qed.

Lemma existsb_false {A} (f : A -> bool) (l : list A) :
  (forall x, In x l -> f x = false) -> existsb f l = false.
Proof.
  intros H. destruct (existsb f l) eqn:E; [|reflexivity].
  apply existsb_exists in E as (x & Hin & Hf).
  rewrite (H x Hin) in Hf. discriminate.
Qed.

(** A record without NaN does not differ from itself. *)
Lemma isDirtyLoops_refl o : holdsNoNaN o -> isDirtyLoops o o = false.
Proof.
  intros Ho. unfold isDirtyLoops.
  rewrite existsb_false.
  - rewrite existsb_false; [reflexivity|].
    intros prop _. by destruct (hasOwnProperty o prop).
  - intros prop _. destruct (hasOwnProperty o prop); simpl; [|reflexivity].
    by apply getProp_selfEqual.
Qed.

Lemma In_ownKeys (o : JsObject) k : In k (ownKeys o) <-> is_Some (o !! k).
Proof.
  unfold ownKeys. rewrite <- list_elem_of_In, list_elem_of_fmap. split.
  - intros ([k' v] & -> & Hin). apply elem_of_map_to_list in Hin. by exists v.
  - intros [v Hv]. exists (k, v). split; [reflexivity|].
    by apply elem_of_map_to_list.
Qed.

Lemma hasOwnProperty_true (o : JsObject) k :
  hasOwnProperty o k = true <-> is_Some (o !! k).
Proof. unfold hasOwnProperty. apply bool_decide_eq_true. Qed.

Lemma hasOwnProperty_false (o : JsObject) k :
  hasOwnProperty o k = false <-> o !! k = None.
Proof.
  unfold hasOwnProperty. rewrite bool_decide_eq_false.
  by rewrite eq_None_not_Some.
Qed.

(** ** isDirty, maybeDiscard, setPosition on a Cursor without edits *)

Lemma Cursor_isDirty_dirtyOf w this c :
  cursors w !! this = Some c ->
  Cursor_isDirty this w = (dirtyOf (heap w) c, w).
Proof.
  intros H. unfold Cursor_isDirty, dirtyOf.
  rewrite (bind_Return _ _ _ _ _ (getCursor_run _ _ _ H)).
  destruct (currentRecordValues_ c); [|reflexivity].
  rewrite run_bind. unfold gets. cbv beta iota.
  destruct (currentRecordAsLoaded_ c); [reflexivity|].
  by destruct (ownKeys _).
Qed.

Lemma dirtyOf_of_isDirty w this c b :
  cursors w !! this = Some c ->
  Cursor_isDirty this w = (Return b, w) ->
  dirtyOf (heap w) c = Return b.
Proof.
  intros H Hd. rewrite (Cursor_isDirty_dirtyOf _ _ _ H) in Hd. congruence.
Qed.

Lemma Cursor_maybeDiscardWith_clean discard w this c opt_newPosition :
  cursors w !! this = Some c ->
  dirtyOf (heap w) c = Return false ->
  Cursor_maybeDiscardWith discard this opt_newPosition w = (Return true, w).
Proof.
  intros H Hd. unfold Cursor_maybeDiscardWith.
  by rewrite run_bind, (Cursor_isDirty_dirtyOf _ _ _ H), Hd.
Qed.


(** ** moveInternal to a valid position *)

Lemma Cursor_moveInternal_run w this c newPosition w2 c2 :
  cursors w !! this = Some c ->
  Cursor_reloadRecord this (setCursor this (withPosition newPosition c) w)
    = (Return tt, w2) ->
  cursors w2 !! this = Some c2 ->
  Cursor_moveInternal this newPosition w =
    (Return tt,
     setCursor this
       (logged (MovementEvent MOVE_TO (position_ c) (Some newPosition)) c2) w2).
Proof.
  intros H Hr H2. unfold Cursor_moveInternal.
  rewrite (bind_Return _ _ _ _ _ (Cursor_getPosition_run _ _ _ H)).
  rewrite (bind_Return _ _ _ _ _ (updateCursor_run _ _ _ _ H)).
  rewrite (bind_Return _ _ _ _ _ Hr).
  by rewrite (bind_Return _ _ _ _ _ (Cursor_dispatchEvent_run _ _ _ _ H2)).
Qed.

Lemma Cursor_reloadRecord_valid w this c :
  cursors w !! this = Some c ->
  validPosition (rowCount w) (position_ c) ->
  exists w' c',
    Cursor_reloadRecord this w = (Return tt, w') /\
    reloadedFrom this c w w' c'.
Proof.
  intros H Hv.
  pose proof (lookup_lt_Some _ _ _ H) as Hlt.
  destruct (position_ c) as [| | |p] eqn:Hp.
  - exists (setCursor this (withRecords None None c) w), (withRecords None None c).
    split; [apply Cursor_reloadRecord_sentinel; auto|].
    split; simpl; try done.
    + by apply list_lookup_insert_eq.
    + unfold recordInvariant. simpl. by rewrite Hp.
    + by exists []; rewrite app_nil_r.
    + intros other Hne. by rewrite list_lookup_insert_ne.
    + by rewrite length_insert.
  - exists (setCursor this (withRecords None None c) w), (withRecords None None c).
    split; [apply Cursor_reloadRecord_sentinel; auto|].
    split; simpl; try done.
    + by apply list_lookup_insert_eq.
    + unfold recordInvariant. simpl. by rewrite Hp.
    + by exists []; rewrite app_nil_r.
    + intros other Hne. by rewrite list_lookup_insert_ne.
    + by rewrite length_insert.
  - eexists _, (withRecords (Some (length (heap w)))
                  (Some (S (length (heap w)))) c).
    split; [by apply Cursor_reloadRecord_NEW|].
    split; simpl; try done.
    + by apply list_lookup_insert_eq.
    + intros _. unfold dirtyOf. simpl.
      rewrite (deref_app_at _ _ (length (heap w)) 0%nat) by lia.
      rewrite (deref_app_at _ _ (S (length (heap w))) 1%nat) by lia.
      reflexivity.
    + unfold recordInvariant. simpl. rewrite Hp. by split; eexists.
    + by eexists.
    + intros other Hne. by rewrite list_lookup_insert_ne.
    + by rewrite length_insert.
  - simpl in Hv.
    destruct (data_ (dataSource_ w) !! Z.to_nat p) as [row|] eqn:Hrow.
    2:{ apply lookup_ge_None in Hrow. unfold rowCount in Hv. lia. }
    eexists _, (withRecords (Some (length (heap w)))
                  (Some (S (length (heap w)))) c).
    split.
    { eapply Cursor_reloadRecord_Index; [exact H|exact Hp|lia|exact Hrow]. }
    split; simpl; try done.
    + by apply list_lookup_insert_eq.
    + intros Hn. unfold dirtyOf. simpl.
      rewrite (deref_app_at _ _ (length (heap w)) 0%nat) by lia.
      rewrite (deref_app_at _ _ (S (length (heap w))) 1%nat) by lia.
      unfold deref at 1 2. simpl. rewrite isDirtyLoops_refl; [reflexivity|].
      by apply holdsNoNaN_project, holdsNoNaN_deref.
    + unfold recordInvariant. simpl. rewrite Hp. by split; eexists.
    + by eexists.
    + intros other Hne. by rewrite list_lookup_insert_ne.
    + by rewrite length_insert.
Qed.

Lemma dirtyOf_logged h e c : dirtyOf h (logged e c) = dirtyOf h c.
Proof. reflexivity. Qed.

Lemma recordInvariant_logged e c : recordInvariant (logged e c) <-> recordInvariant c.
Proof. reflexivity. Qed.

Lemma Cursor_moveInternal_valid w this c newPosition :
  cursors w !! this = Some c ->
  validPosition (rowCount w) newPosition ->
  exists w' c',
    Cursor_moveInternal this newPosition w = (Return tt, w') /\
    movedTo this c newPosition w w' c'.
Proof.
  intros H Hv.
  set (c1 := withPosition newPosition c).
  assert (H1 : cursors (setCursor this c1 w) !! this = Some c1)
    by (eapply setCursor_lookup; eauto).
  destruct (Cursor_reloadRecord_valid _ _ _ H1 Hv) as (w2 & c2 & Hr & Hre).
  destruct Hre as [Hl Hp Hli Hdi Hcl Hinv Hds [t Hh] Hot Hlen].
  set (ev := MovementEvent MOVE_TO (position_ c) (Some newPosition)).
  exists (setCursor this (logged ev c2) w2), (logged ev c2).
  split; [by eapply Cursor_moveInternal_run|].
  split; simpl; try done.
  - apply list_lookup_insert_eq. by eapply lookup_lt_Some.
  - by rewrite Hdi.
  - by exists t.
  - intros other Hne. rewrite list_lookup_insert_ne by done.
    rewrite Hot by done. simpl. by rewrite list_lookup_insert_ne.
  - rewrite length_insert, Hlen. simpl. by rewrite length_insert.
Qed.

Lemma notCancelled_false c e :
  notCancelled c e = false <-> cancelledBy c e.
Proof.
  unfold notCancelled, cancelledBy. split.
  - intros H.
    destruct (forallb _ _) eqn:E in H; [discriminate|].
    apply not_true_iff_false in E. rewrite forallb_forall in E.
    destruct (decide (Exists (fun l => handler l e = false)
                (filter (fun l => listenedType l = evType e) (listeners_ c))))
      as [Hex|Hnex].
    + apply Exists_exists in Hex as (l & Hin & Hl).
      apply list_elem_of_filter in Hin as [Ht Hin].
      exists l. by rewrite <- list_elem_of_In.
    + exfalso. apply E. intros l Hin.
      destruct (handler l e) eqn:Hh; [reflexivity|].
      exfalso. apply Hnex, Exists_exists. exists l.
      split; [by apply list_elem_of_In|done].
  - intros (l & Hin & Ht & Hh).
    apply not_true_iff_false. rewrite forallb_forall. intros Hall.
    specialize (Hall l). rewrite Hh in Hall.
    assert (false = true); [|discriminate].
    apply Hall. apply list_elem_of_In, list_elem_of_filter.
    split; [done|by apply list_elem_of_In].
Qed.

Lemma notCancelled_true c e :
  notCancelled c e = true <-> ~ cancelledBy c e.
Proof.
  rewrite <- notCancelled_false. by destruct (notCancelled c e).
Qed.

(** ** setPosition and moveRelative on a Cursor without edits *)

Lemma Cursor_setPositionWith_same discard w this c :
  cursors w !! this = Some c ->
  dirtyOf (heap w) c = Return false ->
  validPosition (rowCount w) (position_ c) ->
  Cursor_setPositionWith discard this (position_ c) w = (Return tt, w).
Proof.
  intros H Hd Hv. unfold Cursor_setPositionWith.
  rewrite (bind_Return _ _ _ _ _ (Cursor_assertValidPosition_valid _ _ _ Hv)).
  rewrite (bind_Return _ _ _ _ _
             (Cursor_maybeDiscardWith_clean _ _ _ _ _ H Hd)).
  rewrite (bind_Return _ _ _ _ _ (Cursor_getPosition_run _ _ _ H)).
  rewrite bool_decide_eq_false_2; [reflexivity|]. by intros ?.
Qed.

Lemma Cursor_setPositionWith_moves discard w this c newPosition :
  cursors w !! this = Some c ->
  dirtyOf (heap w) c = Return false ->
  validPosition (rowCount w) newPosition ->
  newPosition <> position_ c ->
  Cursor_setPositionWith discard this newPosition w
    = Cursor_moveInternal this newPosition w.
Proof.
  intros H Hd Hv Hne. unfold Cursor_setPositionWith.
  rewrite (bind_Return _ _ _ _ _ (Cursor_assertValidPosition_valid _ _ _ Hv)).
  rewrite (bind_Return _ _ _ _ _
             (Cursor_maybeDiscardWith_clean _ _ _ _ _ H Hd)).
  rewrite (bind_Return _ _ _ _ _ (Cursor_getPosition_run _ _ _ H)).
  by rewrite bool_decide_eq_true_2.
Qed.

Lemma Cursor_setPositionWith_invalid discard w this p :
  ~ (0 <= p < rowCount w) ->
  Cursor_setPositionWith discard this (Index p) w = (Throw IllegalMove, w).
Proof.
  intros H. unfold Cursor_setPositionWith.
  erewrite bind_Throw; [reflexivity|].
  by apply Cursor_assertValidPosition_invalid.
Qed.

(** setPosition on a Cursor without edits: the Cursor rests on the new
    position, and it has no edits there when no record holds NaN. *)
Lemma Cursor_setPositionWith_clean discard w this c newPosition :
  cursors w !! this = Some c ->
  dirtyOf (heap w) c = Return false ->
  validPosition (rowCount w) newPosition ->
  exists w' c',
    Cursor_setPositionWith discard this newPosition w = (Return tt, w') /\
    cursors w' !! this = Some c' /\
    position_ c' = newPosition /\
    (noNaN w -> dirtyOf (heap w') c' = Return false) /\
    dataSource_ w' = dataSource_ w /\
    listeners_ c' = listeners_ c.
Proof.
  intros H Hd Hv.
  destruct (decide (newPosition = position_ c)) as [->|Hne].
  - exists w, c. by rewrite (Cursor_setPositionWith_same _ _ _ c).
  - destruct (Cursor_moveInternal_valid _ _ _ _ H Hv) as (w' & c' & Hm & Hmoved).
    exists w', c'. rewrite (Cursor_setPositionWith_moves _ _ _ c) by done.
    by destruct Hmoved.
Qed.


Lemma Cursor_setPosition_moves w this c newPosition :
  cursors w !! this = Some c ->
  dirtyOf (heap w) c = Return false ->
  validPosition (rowCount w) newPosition ->
  newPosition <> position_ c ->
  Cursor_setPosition this newPosition w = Cursor_moveInternal this newPosition w.
Proof. apply Cursor_setPositionWith_moves. Qed.

Lemma Cursor_setPosition_clean w this c newPosition :
  cursors w !! this = Some c ->
  dirtyOf (heap w) c = Return false ->
  validPosition (rowCount w) newPosition ->
  exists w' c',
    Cursor_setPosition this newPosition w = (Return tt, w') /\
    cursors w' !! this = Some c' /\
    position_ c' = newPosition /\
    (noNaN w -> dirtyOf (heap w') c' = Return false) /\
    dataSource_ w' = dataSource_ w /\
    listeners_ c' = listeners_ c.
Proof. apply Cursor_setPositionWith_clean. Qed.

Lemma moveRelativeTarget_valid position rowCount n target :
  moveRelativeTarget position (Some rowCount) n = Return target ->
  match target with
  | Index t => 0 <= t < rowCount
  | _ => True
  end.
Proof.
  intros H. unfold moveRelativeTarget in H.
  destruct target as [| | |t]; try exact I.
  destruct (n =? 0); [destruct position as [| | |p]|destruct position as [| | |p]];
    repeat match type of H with
    | context [if ?b then _ else _] => destruct b eqn:?
    end; try discriminate; injection H as <-; lia.
Qed.

Lemma Cursor_moveRelative_clean w this c n target :
  cursors w !! this = Some c ->
  dirtyOf (heap w) c = Return false ->
  moveRelativeTarget (position_ c) (Some (rowCount w)) n = Return target ->
  exists w' c',
    Cursor_moveRelative this n w = (Return true, w') /\
    cursors w' !! this = Some c' /\
    position_ c' = target /\
    dataSource_ w' = dataSource_ w.
Proof.
  intros H Hd Ht.
  assert (Hv : validPosition (rowCount w) target).
  { apply moveRelativeTarget_valid in Ht. by destruct target. }
  set (ev := {| evType := MOVE_FORWARD; evPosition := None;
                evNewPosition := Some target; evNumRows := Some n |}).
  assert (H1 : cursors (setCursor this (logged ev c) w) !! this
               = Some (logged ev c)) by (eapply setCursor_lookup; eauto).
  destruct (Cursor_setPosition_clean (setCursor this (logged ev c) w) this
              (logged ev c) target H1 Hd Hv)
    as (w' & c' & Hs & Hl & Hp & _ & Hds & _).
  exists w', c'. split; [|done].
  unfold Cursor_moveRelative.
  rewrite (bind_Return _ _ _ _ _ (Cursor_getPosition_run _ _ _ H)).
  rewrite (bind_Return _ _ _ _ _ (Cursor_getRowCount_run _ _)).
  rewrite run_bind. unfold liftOutcome at 1. rewrite Ht.
  rewrite (bind_Return _ _ _ _ _ (Cursor_assertValidPosition_valid _ _ _ Hv)).
  unfold Cursor_maybeDiscard.
  rewrite (bind_Return _ _ _ _ _
             (Cursor_maybeDiscardWith_clean _ _ _ _ _ H Hd)).
  rewrite (bind_Return _ _ _ _ _ (Cursor_dispatchEvent_run _ _ _ _ H)).
  fold ev. by rewrite (bind_Return _ _ _ _ _ Hs).
Qed.


Lemma spec_clamp_from_source rowCount t :
  match (if t <? 0 then Return BOF
         else match rowCount with
              | Some n => if t >=? n then Return EOF else Return (Index t)
              | None => Return (Index t)
              end) with
  | Return p => p = spec_clamp rowCount t
  | _ => False
  end.
Proof.
  unfold spec_clamp. destruct (t <? 0); [reflexivity|].
  destruct rowCount as [n|]; [|reflexivity].
  destruct (t >=? n) eqn:E1, (n <=? t) eqn:E2; try reflexivity; lia.
Qed.

Lemma moveRelativeTarget_Index p rowCount n :
  moveRelativeTarget (Index p) rowCount n = Return (spec_clamp rowCount (p + n)).
Proof.
  pose proof (spec_clamp_from_source rowCount (p + n)) as H.
  unfold moveRelativeTarget.
  destruct (n =? 0) eqn:E.
  - apply Z.eqb_eq in E. subst n. rewrite Z.add_0_r in *.
    destruct (p <? 0); [by rewrite H|].
    destruct rowCount as [k|]; [|by rewrite H].
    destruct (p >=? k); by rewrite H.
  - destruct (p + n <? 0); [by rewrite H|].
    destruct rowCount as [k|]; [|by rewrite H].
    destruct (p + n >=? k); by rewrite H.
Qed.

Lemma moveRelativeTarget_BOF_forward rowCount n :
  0 < n ->
  moveRelativeTarget BOF rowCount n = Return (spec_clamp rowCount (n - 1)).
Proof.
  intros Hn. pose proof (spec_clamp_from_source rowCount (n - 1)) as H.
  unfold moveRelativeTarget.
  replace (n =? 0) with false by lia. replace (n <? 0) with false by lia.
  destruct (n - 1 <? 0); [by rewrite H|].
  destruct rowCount as [k|]; [|by rewrite H].
  destruct (n - 1 >=? k); by rewrite H.
Qed.

Lemma Cursor_moveRelative_BOF_backward w this c n :
  cursors w !! this = Some c ->
  position_ c = BOF ->
  n < 0 ->
  Cursor_moveRelative this n w = (Throw IllegalMove, w).
Proof.
  intros H Hp Hn. unfold Cursor_moveRelative.
  rewrite (bind_Return _ _ _ _ _ (Cursor_getPosition_run _ _ _ H)).
  rewrite (bind_Return _ _ _ _ _ (Cursor_getRowCount_run _ _)).
  rewrite run_bind. unfold liftOutcome at 1, moveRelativeTarget. rewrite Hp.
  replace (n =? 0) with false by lia. by replace (n <? 0) with true by lia.
Qed.

(** ** The moves *)

(** C5.  moveRelative resolves its target as the specification says: from
    BOF a negative distance throws IllegalMove (nothing is changed) and a
    positive distance [n] gives [n - 1]; from a row index [p] the target is
    [p + n]; the target is clamped to BOF below zero and to EOF at or
    beyond the row count; a Cursor without unsaved edits then rests on
    the resolved target, so that moveRelative(1) from BOF lands on row 0
    of a Datasource with rows and on EOF of an empty one. *)
Theorem moveRelative_resolves_target :
  (forall w this c n,
      cursors w !! this = Some c -> position_ c = BOF -> n < 0 ->
      Cursor_moveRelative this n w = (Throw IllegalMove, w)) /\
  (forall rowCount n,
      0 < n ->
      moveRelativeTarget BOF rowCount n
        = Return (spec_clamp rowCount (n - 1))) /\
  (forall p rowCount n,
      moveRelativeTarget (Index p) rowCount n
        = Return (spec_clamp rowCount (p + n))) /\
  (forall w this c n target,
      cursors w !! this = Some c ->
      Cursor_isDirty this w = (Return false, w) ->
      moveRelativeTarget (position_ c) (Some (rowCount w)) n = Return target ->
      exists w',
        Cursor_moveRelative this n w = (Return true, w') /\
        position_ <$> cursors w' !! this = Some target) /\
  (forall w this c,
      cursors w !! this = Some c -> position_ c = BOF ->
      Cursor_isDirty this w = (Return false, w) ->
      exists w',
        Cursor_moveRelative this 1 w = (Return true, w') /\
        position_ <$> cursors w' !! this
          = Some (if 0 <? rowCount w then Index 0 else EOF)).
Proof.
  assert (Hland : forall w this c n target,
      cursors w !! this = Some c ->
      Cursor_isDirty this w = (Return false, w) ->
      moveRelativeTarget (position_ c) (Some (rowCount w)) n = Return target ->
      exists w',
        Cursor_moveRelative this n w = (Return true, w') /\
        position_ <$> cursors w' !! this = Some target).
  { intros w this c n target H Hd Ht.
    apply (dirtyOf_of_isDirty _ _ _ _ H) in Hd.
    destruct (Cursor_moveRelative_clean _ _ _ _ _ H Hd Ht)
      as (w' & c' & Hm & Hl & Hp & _).
    exists w'. by rewrite Hm, Hl, <- Hp. }
  repeat split.
  - apply Cursor_moveRelative_BOF_backward.
  - apply moveRelativeTarget_BOF_forward.
  - apply moveRelativeTarget_Index.
  - exact Hland.
  - intros w this c H Hp Hd.
    apply (Hland w this c 1 _ H Hd).
    rewrite Hp, moveRelativeTarget_BOF_forward by lia.
    unfold spec_clamp. change (1 - 1) with 0. simpl.
    destruct (rowCount w <=? 0) eqn:E1, (0 <? rowCount w) eqn:E2;
      try reflexivity; lia.
Qed.

(** C9.  On a Datasource without rows moveLast throws IllegalMove: the
    target [rowCount - 1] is -1, which setPosition refuses.  The Cursor
    keeps its position (it is not moved to BOF); only the MOVE_LAST
    notification has been dispatched. *)
Theorem moveLast_on_empty_datasource (w : World) (this : nat) (c : Cursor) :
  cursors w !! this = Some c ->
  Cursor_getRowCount this w = (Return (Some 0), w) ->
  exists w',
    Cursor_moveLast this w = (Throw IllegalMove, w') /\
    position_ <$> cursors w' !! this = Some (position_ c) /\
    w' = setCursor this
           (logged {| evType := MOVE_LAST; evPosition := None;
                      evNewPosition := Some (Index (-1));
                      evNumRows := None |} c) w.
Proof.
  intros H Hrc. rewrite Cursor_getRowCount_run in Hrc.
  assert (Hz : rowCount w = 0) by congruence.
  eexists. split; [by apply moveLast_empty|]. split; [|reflexivity].
  by erewrite setCursor_lookup by eauto.
Qed.

(** ** The Datasource: replace and atomicReplace *)

Lemma isDifferent_true expected actual :
  isDifferent expected actual = true <-> exists k, differAt expected actual k.
Proof.
  unfold isDifferent, differAt. split.
  - intros H.
    destruct (existsb _ (ownKeys actual)) eqn:E; simpl in H.
    + apply existsb_exists in E as (k & Hin & Hk).
      apply andb_true_iff in Hk as [Ho Hk]. apply loose_eq_false in Hk.
      exists k. split; [|done]. right. by apply In_ownKeys.
    + apply existsb_exists in H as (k & Hin & Hk).
      apply andb_true_iff in Hk as [Ho Hk]. apply loose_eq_false in Hk.
      exists k. split; [|done]. left. by apply In_ownKeys.
  - intros (k & [He|Ha] & Hk). all: apply loose_eq_false in Hk.
    + destruct (existsb _ (ownKeys actual)) eqn:E; simpl; [reflexivity|].
      apply existsb_exists. exists k. split; [by apply In_ownKeys|].
      apply andb_true_iff. split; [by apply hasOwnProperty_true|done].
    + assert (E : existsb (fun k =>
          hasOwnProperty actual k &&
          loose_neq (getProp expected k) (getProp actual k))
          (ownKeys actual) = true).
      { apply existsb_exists. exists k. split; [by apply In_ownKeys|].
        apply andb_true_iff. split; [by apply hasOwnProperty_true|done]. }
      by rewrite E.
Qed.

Lemma isDifferent_false expected actual :
  isDifferent expected actual = false <->
  ~ exists k, differAt expected actual k.
Proof.
  rewrite <- isDifferent_true. by destruct (isDifferent expected actual).
Qed.

Lemma Datasource_assertValidRow_valid w rowIndex :
  0 <= rowIndex < rowCount w ->
  Datasource_assertValidRow rowIndex None w = (Return tt, w).
Proof.
  intros H. unfold Datasource_assertValidRow, rowCount in *.
  replace (rowIndex <? 0) with false by lia.
  rewrite run_bind. unfold gets at 1. cbv beta iota.
  by replace (rowIndex >? Z.of_nat (length (data_ (dataSource_ w))) - 1)
    with false by lia.
Qed.

Lemma SimpleDatasource_replace_run w rowIndex newRecord :
  0 <= rowIndex < rowCount w ->
  SimpleDatasource_replace rowIndex newRecord w
    = (Return tt, replaced rowIndex newRecord w).
Proof.
  intros H. unfold SimpleDatasource_replace.
  rewrite (bind_Return _ _ _ _ _ (Datasource_assertValidRow_valid _ _ H)).
  reflexivity.
Qed.

Lemma records_lookup w i (row : nat) :
  data_ (dataSource_ w) !! i = Some row ->
  records w !! i = Some (deref (heap w) row).
Proof. intros H. unfold records. by rewrite list_lookup_fmap, H. Qed.

Lemma records_lookup_inv w i o :
  records w !! i = Some o ->
  exists row : nat,
    data_ (dataSource_ w) !! i = Some row /\ o = deref (heap w) row.
Proof.
  unfold records. rewrite list_lookup_fmap. intros H.
  destruct (data_ (dataSource_ w) !! i) as [row|]; [|discriminate].
  exists row. split; [reflexivity|]. simpl in H. congruence.
Qed.

Lemma fmap_deref_app (h t : list JsObject) (d : list nat) :
  Forall (fun l => (l < length h)%nat) d ->
  deref (h ++ t) <$> d = deref h <$> d.
Proof.
  intros H. apply list_fmap_ext. intros i l Hl.
  apply deref_app_l. rewrite Forall_forall in H.
  apply H. by eapply list_elem_of_lookup_2.
Qed.

Lemma records_withHeap_app w t :
  dataAllocated w ->
  records (withHeap (heap w ++ t) w) = records w.
Proof. intros H. unfold records. simpl. by apply fmap_deref_app. Qed.

Lemma splice_replace_insert {A} (l : list A) i x :
  (i < length l)%nat -> splice i 1 [x] l = <[i := x]> l.
Proof.
  intros H. unfold splice. rewrite insert_take_drop by done.
  simpl. by replace (i + 1)%nat with (S i) by lia.
Qed.

Lemma records_replaced w rowIndex newRecord :
  0 <= rowIndex < rowCount w ->
  dataAllocated w ->
  records (replaced rowIndex newRecord w)
    = <[Z.to_nat rowIndex := deref (heap w) newRecord]> (records w).
Proof.
  intros H Ha. unfold records, replaced, rowCount in *. simpl.
  rewrite splice_replace_insert by lia.
  rewrite list_fmap_insert, deref_snoc. f_equal.
  by apply fmap_deref_app.
Qed.

Lemma Datasource_atomicReplace_run w rowIndex expected newValues row :
  (expected < length (heap w))%nat ->
  (newValues < length (heap w))%nat ->
  0 <= rowIndex ->
  data_ (dataSource_ w) !! Z.to_nat rowIndex = Some row ->
  Datasource_atomicReplace rowIndex expected newValues w =
    let w1 := withHeap (heap w ++ [deref (heap w) row]) w in
    if isDifferent (deref (heap w) expected) (deref (heap w) row)
    then (Throw (ConcurrentModification (length (heap w))), w1)
    else (Return tt, replaced rowIndex newValues w1).
Proof.
  intros He Hn H0 Hrow.
  assert (Hv : 0 <= rowIndex < rowCount w).
  { apply lookup_lt_Some in Hrow. unfold rowCount. lia. }
  unfold Datasource_atomicReplace, goog_asserts_assertObject.
  rewrite !run_bind. unfold gets at 1. cbv beta iota.
  rewrite bool_decide_eq_true_2 by done. unfold ret at 1. cbv beta iota.
  rewrite !run_bind. unfold gets at 1. cbv beta iota.
  rewrite bool_decide_eq_true_2 by done. unfold ret at 1. cbv beta iota.
  rewrite (bind_Return _ _ _ _ _ (Datasource_assertValidRow_valid _ _ Hv)).
  rewrite (bind_Return _ _ _ _ _ (SimpleDatasource_get_run _ _ _ H0 Hrow)).
  rewrite run_bind. unfold gets at 1. cbv beta iota.
  change (heap (withHeap (heap w ++ [deref (heap w) row]) w))
    with (heap w ++ [deref (heap w) row]).
  rewrite deref_snoc, deref_app_l by done.
  destruct (isDifferent _ _); [reflexivity|].
  by apply SimpleDatasource_replace_run.
Qed.

Lemma dataAllocated_withHeap_app w t :
  dataAllocated w -> dataAllocated (withHeap (heap w ++ t) w).
Proof.
  unfold dataAllocated. simpl. intros H.
  eapply Forall_impl; [exact H|]. intros l Hl. simpl in *.
  rewrite length_app. lia.
Qed.

Lemma atomicReplace_differs w rowIndex expected next row :
  dataAllocated w ->
  (expected < length (heap w))%nat ->
  (next < length (heap w))%nat ->
  0 <= rowIndex ->
  data_ (dataSource_ w) !! Z.to_nat rowIndex = Some row ->
  isDifferent (deref (heap w) expected) (deref (heap w) row) = true ->
  exists w' carried,
    Datasource_atomicReplace rowIndex expected next w
      = (Throw (ConcurrentModification carried), w') /\
    deref (heap w') carried = deref (heap w) row /\
    dataSource_ w' = dataSource_ w /\
    records w' = records w /\
    cursors w' = cursors w /\
    (forall l, (l < length (heap w))%nat ->
               deref (heap w') l = deref (heap w) l).
Proof.
  intros Ha He Hn H0 Hrow Hd.
  exists (withHeap (heap w ++ [deref (heap w) row]) w), (length (heap w)).
  rewrite (Datasource_atomicReplace_run _ _ _ _ _ He Hn H0 Hrow). simpl.
  rewrite Hd. split; [reflexivity|]. split; [apply deref_snoc|].
  split; [reflexivity|]. split; [by apply records_withHeap_app|].
  split; [reflexivity|]. intros l Hl. by apply deref_app_l.
Qed.

Lemma atomicReplace_same w rowIndex expected next row :
  dataAllocated w ->
  (expected < length (heap w))%nat ->
  (next < length (heap w))%nat ->
  0 <= rowIndex ->
  data_ (dataSource_ w) !! Z.to_nat rowIndex = Some row ->
  isDifferent (deref (heap w) expected) (deref (heap w) row) = false ->
  exists w1 w2,
    Datasource_atomicReplace rowIndex expected next w = (Return tt, w1) /\
    SimpleDatasource_replace rowIndex next w = (Return tt, w2) /\
    records w1 = records w2 /\
    columns_ (dataSource_ w1) = columns_ (dataSource_ w2) /\
    dsDispatched (dataSource_ w1) = dsDispatched (dataSource_ w2) /\
    cursors w1 = cursors w2 /\
    records w2 = <[Z.to_nat rowIndex := deref (heap w) next]> (records w).
Proof.
  intros Ha He Hn H0 Hrow Hd.
  assert (Hv : 0 <= rowIndex < rowCount w).
  { apply lookup_lt_Some in Hrow. unfold rowCount. lia. }
  exists (replaced rowIndex next (withHeap (heap w ++ [deref (heap w) row]) w)),
         (replaced rowIndex next w).
  rewrite (Datasource_atomicReplace_run _ _ _ _ _ He Hn H0 Hrow). simpl.
  rewrite Hd. split; [reflexivity|].
  split; [by apply SimpleDatasource_replace_run|].
  rewrite !records_replaced
    by (try apply dataAllocated_withHeap_app; done).
  rewrite records_withHeap_app by done.
  change (heap (withHeap (heap w ++ [deref (heap w) row]) w))
    with (heap w ++ [deref (heap w) row]).
  rewrite deref_app_l by done. done.
Qed.

(** ** atomicReplace as a compare-and-swap *)

(** C1.  For a valid row index and live records [expected] and [next]:
    when the expected and the actual record differ at some key (the key
    is owned by one of them and the two values read there are loosely
    unequal), atomicReplace throws ConcurrentModification carrying a
    copy of the actual record, and the Datasource (its rows, its columns,
    its dispatched events), every object of the store and the Cursors are
    as before; when they differ at no key, atomicReplace returns and
    leaves the Datasource and the Cursors as replace(index, next) does. *)
Theorem atomicReplace_compare_and_swap (w : World) (rowIndex : Z)
    (expected next : nat) (actual : JsObject) :
  dataAllocated w ->
  (expected < length (heap w))%nat ->
  (next < length (heap w))%nat ->
  0 <= rowIndex ->
  records w !! Z.to_nat rowIndex = Some actual ->
  ((exists k, differAt (deref (heap w) expected) actual k) ->
   exists w' carried,
     Datasource_atomicReplace rowIndex expected next w
       = (Throw (ConcurrentModification carried), w') /\
     deref (heap w') carried = actual /\
     dataSource_ w' = dataSource_ w /\
     records w' = records w /\
     cursors w' = cursors w /\
     (forall l, (l < length (heap w))%nat ->
                deref (heap w') l = deref (heap w) l)) /\
  (~ (exists k, differAt (deref (heap w) expected) actual k) ->
   exists w1 w2,
     Datasource_atomicReplace rowIndex expected next w = (Return tt, w1) /\
     SimpleDatasource_replace rowIndex next w = (Return tt, w2) /\
     records w1 = records w2 /\
     columns_ (dataSource_ w1) = columns_ (dataSource_ w2) /\
     dsDispatched (dataSource_ w1) = dsDispatched (dataSource_ w2) /\
     cursors w1 = cursors w2 /\
     records w2 = <[Z.to_nat rowIndex := deref (heap w) next]> (records w)).
Proof.
  intros Ha He Hn H0 Hact.
  apply records_lookup_inv in Hact as (row & Hrow & ->).
  split; intros Hd.
  - apply isDifferent_true in Hd.
    by apply (atomicReplace_differs w rowIndex expected next row).
  - apply isDifferent_false in Hd.
    by apply (atomicReplace_same w rowIndex expected next row).
Qed.

(** C10.  The diff of atomicReplace and the diff of isDirty disagree on
    the presence of a key.  When [expected] owns a key holding undefined
    or null that the actual record does not own and that Object.prototype
    does not define, and the values at all other keys are loosely equal,
    atomicReplace replaces the row and raises nothing.  isDirty answers
    true as soon as a key is owned by only one of currentValues and
    loadedValues, whatever the value. *)
Theorem atomicReplace_and_isDirty_disagree :
  (forall w rowIndex (expected next : nat) actual k,
      dataAllocated w ->
      (expected < length (heap w))%nat ->
      (next < length (heap w))%nat ->
      0 <= rowIndex ->
      records w !! Z.to_nat rowIndex = Some actual ->
      (deref (heap w) expected !! k = Some undefined \/
       deref (heap w) expected !! k = Some null) ->
      actual !! k = None ->
      inherited k = undefined ->
      (forall k', k' <> k ->
         loose_eq (getProp (deref (heap w) expected) k') (getProp actual k')
           = true) ->
      exists w',
        Datasource_atomicReplace rowIndex expected next w = (Return tt, w') /\
        records w'
          = <[Z.to_nat rowIndex := deref (heap w) next]> (records w)) /\
  (forall w this c (values asLoaded : nat) k,
      cursors w !! this = Some c ->
      currentRecordValues_ c = Some values ->
      currentRecordAsLoaded_ c = Some asLoaded ->
      (is_Some (deref (heap w) values !! k) /\
       deref (heap w) asLoaded !! k = None) \/
      (deref (heap w) values !! k = None /\
       is_Some (deref (heap w) asLoaded !! k)) ->
      Cursor_isDirty this w = (Return true, w)).
Proof.
  split.
  - intros w rowIndex expected next actual k Ha He Hn H0 Hact Hk Hnone Hproto
      Hothers.
    apply records_lookup_inv in Hact as (row & Hrow & ->).
    destruct (atomicReplace_same w rowIndex expected next row
                Ha He Hn H0 Hrow)
      as (w1 & w2 & H1 & H2 & Hr & _ & _ & _ & Hr2).
    + apply isDifferent_false. intros (k' & _ & Hneq).
      destruct (decide (k' = k)) as [->|Hne].
      * apply loose_eq_false in Hneq.
        unfold getProp in Hneq. rewrite Hnone, Hproto in Hneq. simpl in Hneq.
        destruct Hk as [Hk|Hk]; rewrite Hk in Hneq; simpl in Hneq.
        -- by rewrite undefined_loose_eq in Hneq.
        -- by rewrite null_loose_eq in Hneq.
      * rewrite Hothers in Hneq by done. discriminate.
    + exists w1. split; [exact H1|]. by rewrite Hr.
  - intros w this c values asLoaded k H Hv Hl Hk.
    rewrite (Cursor_isDirty_run _ _ _ _ _ H Hv Hl). f_equal. f_equal.
    unfold isDirtyLoops.
    destruct Hk as [[Hs Hnone]|[Hnone Hs]].
    + rewrite (proj2 (existsb_exists _ _)); [reflexivity|].
      exists k. split; [by apply In_ownKeys|].
      rewrite (proj2 (hasOwnProperty_true _ _) Hs).
      by rewrite (proj2 (hasOwnProperty_false _ _) Hnone).
    + destruct (existsb _ (ownKeys (deref (heap w) values))); [reflexivity|].
      rewrite (proj2 (existsb_exists _ _)); [reflexivity|].
      exists k. split; [by apply In_ownKeys|].
      rewrite (proj2 (hasOwnProperty_true _ _) Hs).
      by rewrite (proj2 (hasOwnProperty_false _ _) Hnone).
Qed.

(** ** discard *)

Lemma deref_clone_self h l : deref (h ++ [deref h l]) l = deref h l.
Proof.
  destruct (decide (l < length h)%nat) as [Hl|Hl].
  - by apply deref_app_l.
  - rewrite (deref_app_at h _ l (l - length h)%nat) by lia.
    assert (Hd : deref h l = ∅).
    { unfold deref. by rewrite lookup_ge_None_2 by lia. }
    rewrite Hd. unfold deref. by destruct (l - length h)%nat as [|[|k]].
Qed.

Lemma Cursor_getLoadedValues_run w this c asLoaded :
  cursors w !! this = Some c ->
  position_ c <> BOF -> position_ c <> EOF ->
  currentRecordAsLoaded_ c = Some asLoaded ->
  Cursor_getLoadedValues this w =
    (Return (length (heap w)),
     withHeap (heap w ++ [deref (heap w) asLoaded]) w).
Proof.
  intros H Hb He Hl. unfold Cursor_getLoadedValues.
  rewrite run_bind, (Cursor_assertCurrentRecord_run _ _ _ H).
  destruct (position_ c) eqn:Hp; try congruence;
    rewrite (bind_Return _ _ _ _ _ (getCursor_run _ _ _ H)), Hl;
    reflexivity.
Qed.

Lemma Cursor_getCurrentValues_run w this c values :
  cursors w !! this = Some c ->
  position_ c <> BOF -> position_ c <> EOF ->
  currentRecordValues_ c = Some values ->
  Cursor_getCurrentValues this w =
    (Return (length (heap w)),
     withHeap (heap w ++ [deref (heap w) values]) w).
Proof.
  intros H Hb He Hl. unfold Cursor_getCurrentValues.
  rewrite run_bind, (Cursor_assertCurrentRecord_run _ _ _ H).
  destruct (position_ c) eqn:Hp; try congruence;
    rewrite (bind_Return _ _ _ _ _ (getCursor_run _ _ _ H)), Hl;
    reflexivity.
Qed.

Lemma dirtyOf_true_inv h c :
  dirtyOf h c = Return true ->
  exists values asLoaded : nat,
    currentRecordValues_ c = Some values /\
    currentRecordAsLoaded_ c = Some asLoaded /\
    isDirtyLoops (deref h values) (deref h asLoaded) = true.
Proof.
  unfold dirtyOf. intros H.
  destruct (currentRecordValues_ c) as [values|]; [|discriminate].
  destruct (currentRecordAsLoaded_ c) as [asLoaded|].
  - exists values, asLoaded. repeat split. congruence.
  - by destruct (ownKeys _).
Qed.

Lemma dirtyOf_not_OutOfFuel h c : dirtyOf h c <> OutOfFuel.
Proof.
  unfold dirtyOf.
  destruct (currentRecordValues_ c); [|discriminate].
  destruct (currentRecordAsLoaded_ c); [discriminate|].
  by destruct (ownKeys _).
Qed.

(** The Cursor after the first half of discard: currentRecordValues_ is
    the new copy at the end of the store and DISCARD is dispatched. *)
Lemma Cursor_discardWith_dirty setPosition w this c asLoaded
    opt_newPosition :
  cursors w !! this = Some c ->
  position_ c <> BOF -> position_ c <> EOF ->
  dirtyOf (heap w) c = Return true ->
  currentRecordAsLoaded_ c = Some asLoaded ->
  Cursor_discardWith setPosition this opt_newPosition w =
    bind (if bool_decide (position_ c = NEW)
          then setPosition this (Index (rowCount w - 1))
          else ret tt)
      (fun _ =>
         position <- Cursor_getPosition this ;;
         _ <- Cursor_dispatchEvent this (RowEvent MODIFIED position) ;;
         ret tt)
      (setCursor this
         (logged (MovementEvent DISCARD (position_ c) opt_newPosition)
            (withCurrentRecordValues (Some (length (heap w))) c))
         (withHeap (heap w ++ [deref (heap w) asLoaded]) w)).
Proof.
  intros H Hb He Hd Hl. unfold Cursor_discardWith.
  rewrite run_bind, (Cursor_assertCurrentRecord_run _ _ _ H).
  assert (Hok : match position_ c with
                | BOF | EOF => Throw NoCurrentRecord
                | _ => Return tt
                end = Return tt) by (by destruct (position_ c)).
  rewrite Hok.
  rewrite run_bind, (Cursor_isDirty_dirtyOf _ _ _ H), Hd.
  cbv beta iota. change (negb true) with false. cbv iota.
  rewrite (bind_Return _ _ _ _ _
             (Cursor_getLoadedValues_run _ _ _ _ H Hb He Hl)).
  set (w0 := withHeap (heap w ++ [deref (heap w) asLoaded]) w).
  assert (H0 : cursors w0 !! this = Some c) by exact H.
  rewrite (bind_Return _ _ _ _ _ (updateCursor_run _ _ _ _ H0)).
  set (c0 := withCurrentRecordValues (Some (length (heap w))) c).
  assert (H1 : cursors (setCursor this c0 w0) !! this = Some c0)
    by (eapply setCursor_lookup; eauto).
  rewrite (bind_Return _ _ _ _ _ (Cursor_getPosition_run _ _ _ H1)).
  rewrite (bind_Return _ _ _ _ _ (Cursor_dispatchEvent_run _ _ _ _ H1)).
  rewrite setCursor_setCursor.
  set (c1 := logged _ c0).
  assert (H2 : cursors (setCursor this c1 w0) !! this = Some c1)
    by (eapply setCursor_lookup; eauto).
  rewrite (bind_Return _ _ _ _ _ (Cursor_getPosition_run _ _ _ H2)).
  change (position_ c1) with (position_ c).
  destruct (bool_decide (position_ c = NEW)); [|reflexivity].
  rewrite !run_bind. by rewrite Cursor_getRowCount_run.
Qed.

(** After the first half of discard the Cursor has no edits, when the
    loaded values hold no NaN. *)
Lemma discarded_clean w c asLoaded e :
  currentRecordAsLoaded_ c = Some asLoaded ->
  holdsNoNaN (deref (heap w) asLoaded) ->
  dirtyOf (heap w ++ [deref (heap w) asLoaded])
    (logged e (withCurrentRecordValues (Some (length (heap w))) c))
    = Return false.
Proof.
  intros Hl Hn. unfold dirtyOf. simpl. rewrite Hl.
  by rewrite deref_snoc, deref_clone_self, isDirtyLoops_refl.
Qed.


Lemma Cursor_setPositionWith_clean_indep d1 d2 w this c newPosition :
  cursors w !! this = Some c ->
  dirtyOf (heap w) c = Return false ->
  Cursor_setPositionWith d1 this newPosition w
    = Cursor_setPositionWith d2 this newPosition w.
Proof.
  intros H Hd. unfold Cursor_setPositionWith.
  rewrite !run_bind.
  destruct (Cursor_assertValidPosition this newPosition w) as [[b| |] w1] eqn:E;
    try reflexivity.
  assert (Hw : w1 = w); [|subst w1].
  { unfold Cursor_assertValidPosition in E.
    rewrite (bind_Return _ _ _ _ _ (Cursor_getRowCount_run _ _)) in E.
    destruct newPosition; try (by inversion E).
    destruct (_ && _); by inversion E. }
  rewrite (bind_Return _ _ _ _ _
             (Cursor_maybeDiscardWith_clean d1 _ _ _ _ H Hd)).
  by rewrite (bind_Return _ _ _ _ _
                (Cursor_maybeDiscardWith_clean d2 _ _ _ _ H Hd)).
Qed.

Lemma Cursor_discardWith_indep d1 d2 w this opt_newPosition :
  (forall c asLoaded,
     cursors w !! this = Some c -> position_ c = NEW ->
     currentRecordAsLoaded_ c = Some asLoaded ->
     holdsNoNaN (deref (heap w) asLoaded)) ->
  Cursor_discardWith (Cursor_setPositionWith d1) this opt_newPosition w
    = Cursor_discardWith (Cursor_setPositionWith d2) this opt_newPosition w.
Proof.
  intros Hnew.
  destruct (cursors w !! this) as [c|] eqn:H.
  2:{ unfold Cursor_discardWith, Cursor_assertCurrentRecord, getCursor.
      rewrite !run_bind. by rewrite H. }
  destruct (decide (position_ c = BOF \/ position_ c = EOF)) as [Hp|Hp].
  { unfold Cursor_discardWith.
    rewrite !run_bind, (Cursor_assertCurrentRecord_run _ _ _ H).
    by destruct Hp as [-> | ->]. }
  assert (Hb : position_ c <> BOF) by tauto.
  assert (He : position_ c <> EOF) by tauto.
  destruct (dirtyOf (heap w) c) as [[|]| |] eqn:Hd.
  - destruct (dirtyOf_true_inv _ _ Hd) as (values & asLoaded & Hv & Hl & _).
    rewrite !(Cursor_discardWith_dirty _ _ _ _ _ _ H Hb He Hd Hl).
    destruct (bool_decide (position_ c = NEW)) eqn:Hnw; [|reflexivity].
    apply bool_decide_eq_true in Hnw.
    rewrite !run_bind.
    erewrite (Cursor_setPositionWith_clean_indep d1 d2); [reflexivity| |].
    + eapply setCursor_lookup. exact H.
    + apply discarded_clean; [exact Hl|]. by apply (Hnew c).
  - unfold Cursor_discardWith.
    rewrite !run_bind, (Cursor_assertCurrentRecord_run _ _ _ H).
    destruct (position_ c); try tauto;
      by rewrite !run_bind, (Cursor_isDirty_dirtyOf _ _ _ H), Hd.
  - unfold Cursor_discardWith.
    rewrite !run_bind, (Cursor_assertCurrentRecord_run _ _ _ H).
    destruct (position_ c); try tauto;
      by rewrite !run_bind, (Cursor_isDirty_dirtyOf _ _ _ H), Hd.
  - by apply dirtyOf_not_OutOfFuel in Hd.
Qed.

(** The bound on the nesting of discard is not reached when the loaded
    values of a Cursor at NEW hold no NaN (they are the empty object that
    reloadRecord made): one level of fuel gives the result of any larger
    amount. *)
Lemma Cursor_discard_fuel_stable fuel this opt_newPosition w :
  (forall c asLoaded,
     cursors w !! this = Some c -> position_ c = NEW ->
     currentRecordAsLoaded_ c = Some asLoaded ->
     holdsNoNaN (deref (heap w) asLoaded)) ->
  Cursor_discard_fuel (S fuel) this opt_newPosition w
    = Cursor_discard this opt_newPosition w.
Proof.
  intros Hnew. unfold Cursor_discard. simpl.
  by apply Cursor_discardWith_indep.
Qed.

Lemma Cursor_discard_unfold this opt_newPosition w :
  (forall c asLoaded,
     cursors w !! this = Some c -> position_ c = NEW ->
     currentRecordAsLoaded_ c = Some asLoaded ->
     holdsNoNaN (deref (heap w) asLoaded)) ->
  Cursor_discard this opt_newPosition w
    = Cursor_discardWith Cursor_setPosition this opt_newPosition w.
Proof.
  intros Hnew. unfold Cursor_discard, Cursor_setPosition. simpl.
  by apply Cursor_discardWith_indep.
Qed.

(** discard with the setPosition it calls at the first level of
    nesting. *)
Lemma Cursor_discard_first this opt_newPosition w :
  Cursor_discard this opt_newPosition w
    = Cursor_discardWith (Cursor_setPositionWith (Cursor_discard_fuel 1))
        this opt_newPosition w.
Proof. reflexivity. Qed.

(** ** isDirty *)

Lemma isDirtyLoops_true newValues oldValues :
  isDirtyLoops newValues oldValues = true <->
  exists k, dirtyAt newValues oldValues k.
Proof.
  unfold isDirtyLoops, dirtyAt. split.
  - intros H.
    destruct (existsb _ (ownKeys newValues)) eqn:E1.
    + apply existsb_exists in E1 as (k & Hin & Hk). exists k.
      apply In_ownKeys in Hin.
      rewrite (proj2 (hasOwnProperty_true _ _) Hin) in Hk. simpl in Hk.
      destruct (hasOwnProperty oldValues k) eqn:Ho; simpl in Hk.
      * right. right. apply loose_eq_false in Hk.
        by apply hasOwnProperty_true in Ho.
      * left. by apply hasOwnProperty_false in Ho.
    + destruct (existsb _ (ownKeys oldValues)) eqn:E2; [|discriminate].
      apply existsb_exists in E2 as (k & Hin & Hk). exists k.
      apply In_ownKeys in Hin.
      rewrite (proj2 (hasOwnProperty_true _ _) Hin) in Hk. simpl in Hk.
      apply negb_true_iff, hasOwnProperty_false in Hk. right. by left.
  - intros (k & Hk).
    destruct (existsb _ (ownKeys newValues)) eqn:E1; [reflexivity|].
    destruct Hk as [[Hn Ho]|[[Hn Ho]|(Hn & Ho & Hneq)]].
    + exfalso. apply not_true_iff_false in E1. apply E1.
      apply existsb_exists. exists k. split; [by apply In_ownKeys|].
      rewrite (proj2 (hasOwnProperty_true _ _) Hn).
      by rewrite (proj2 (hasOwnProperty_false _ _) Ho).
    + rewrite (proj2 (existsb_exists _ _)); [reflexivity|].
      exists k. split; [by apply In_ownKeys|].
      rewrite (proj2 (hasOwnProperty_true _ _) Ho).
      by rewrite (proj2 (hasOwnProperty_false _ _) Hn).
    + exfalso. apply not_true_iff_false in E1. apply E1.
      apply existsb_exists. exists k. split; [by apply In_ownKeys|].
      rewrite (proj2 (hasOwnProperty_true _ _) Hn).
      rewrite (proj2 (hasOwnProperty_true _ _) Ho). simpl.
      by apply loose_eq_false.
Qed.

(** ** The methods bring no NaN into the store *)

Lemma keepsNoNaN_heap {A} (m : M A) :
  (forall w, heap (snd (m w)) = heap w) -> keepsNoNaN m.
Proof.
  intros H w o w' Hn Hr. unfold noNaN.
  specialize (H w). rewrite Hr in H. simpl in H. by rewrite H.
Qed.

Lemma keepsNoNaN_ret {A} (a : A) : keepsNoNaN (ret a).
Proof. by apply keepsNoNaN_heap. Qed.

Lemma keepsNoNaN_throw {A} e : keepsNoNaN (throw e : M A).
Proof. by apply keepsNoNaN_heap. Qed.

Lemma keepsNoNaN_outOfFuel {A} : keepsNoNaN (outOfFuel : M A).
Proof. by apply keepsNoNaN_heap. Qed.

Lemma keepsNoNaN_gets {A} (f : World -> A) : keepsNoNaN (gets f).
Proof. by apply keepsNoNaN_heap. Qed.

Lemma keepsNoNaN_liftOutcome {A} (o : Outcome A) : keepsNoNaN (liftOutcome o).
Proof. by apply keepsNoNaN_heap. Qed.

Lemma keepsNoNaN_requireObject o : keepsNoNaN (requireObject o).
Proof. apply keepsNoNaN_heap. intros w. by destruct o. Qed.

Lemma keepsNoNaN_getCursor this : keepsNoNaN (getCursor this).
Proof.
  apply keepsNoNaN_heap. intros w. unfold getCursor.
  by destruct (cursors w !! this).
Qed.

Lemma keepsNoNaN_updateCursor this f : keepsNoNaN (updateCursor this f).
Proof. by apply keepsNoNaN_heap. Qed.

Lemma keepsNoNaN_setData d : keepsNoNaN (setData d).
Proof. by apply keepsNoNaN_heap. Qed.

Lemma keepsNoNaN_bind {A B} (m : M A) (k : A -> M B) :
  keepsNoNaN m -> (forall a, keepsNoNaN (k a)) -> keepsNoNaN (bind m k).
Proof.
  intros Hm Hk w o w' Hn. rewrite run_bind.
  destruct (m w) as [[a| |] w1] eqn:E; intros Hr.
  - eapply Hk; [|exact Hr]. by eapply Hm.
  - injection Hr as <- <-. by eapply Hm.
  - injection Hr as <- <-. by eapply Hm.
Qed.

Lemma keepsNoNaN_tryCatch {A} (m : M A) (h : Exception -> M A) :
  keepsNoNaN m -> (forall e, keepsNoNaN (h e)) -> keepsNoNaN (tryCatch m h).
Proof.
  intros Hm Hh w o w' Hn. unfold tryCatch.
  destruct (m w) as [[a|e|] w1] eqn:E; intros Hr.
  - injection Hr as <- <-. by eapply Hm.
  - eapply Hh; [|exact Hr]. by eapply Hm.
  - injection Hr as <- <-. by eapply Hm.
Qed.

Lemma keepsNoNaN_forEach {A} (body : A -> M unit) (l : list A) :
  (forall x, keepsNoNaN (body x)) -> keepsNoNaN (forEach body l).
Proof.
  intros Hb. induction l as [|x l IH]; simpl.
  - apply keepsNoNaN_ret.
  - apply keepsNoNaN_bind; [apply Hb|]. intros _. exact IH.
Qed.

Lemma keepsNoNaN_newObject : keepsNoNaN newObject.
Proof.
  intros w o w' Hn Hr. unfold newObject in Hr. injection Hr as _ <-.
  unfold noNaN. simpl. apply Forall_app. split; [exact Hn|].
  apply Forall_singleton, holdsNoNaN_empty.
Qed.

Lemma keepsNoNaN_goog_object_clone obj : keepsNoNaN (goog_object_clone obj).
Proof.
  intros w o w' Hn Hr. unfold goog_object_clone in Hr. injection Hr as _ <-.
  unfold noNaN. simpl. apply Forall_app. split; [exact Hn|].
  by apply Forall_singleton, holdsNoNaN_deref.
Qed.

(** A property copied from one record to another. *)
Lemma keepsNoNaN_copy (source target : nat) k (rest : Value -> M unit) :
  (forall v, selfEqual v -> keepsNoNaN (rest v)) ->
  keepsNoNaN (v <- readProp source k ;; _ <- writeProp target k v ;; rest v).
Proof.
  intros Hrest w o w' Hn.
  unfold readProp. rewrite run_bind. unfold gets at 1. cbv beta iota.
  unfold writeProp. rewrite run_bind. unfold modify at 1. cbv beta iota.
  assert (Hv : selfEqual (getProp (deref (heap w) source) k))
    by (by apply getProp_selfEqual, holdsNoNaN_deref).
  apply (Hrest _ Hv).
  unfold noNaN. simpl. apply Forall_insert; [exact Hn|].
  apply holdsNoNaN_insert; [by apply holdsNoNaN_deref|exact Hv].
Qed.

Lemma keepsNoNaN_writeProp (target : nat) k v :
  selfEqual v -> keepsNoNaN (writeProp target k v).
Proof.
  intros Hv w o w' Hn Hr. unfold writeProp, modify in Hr.
  injection Hr as _ <-.
  unfold noNaN. simpl. apply Forall_insert; [exact Hn|].
  apply holdsNoNaN_insert; [by apply holdsNoNaN_deref|exact Hv].
Qed.

#[local] Hint Resolve keepsNoNaN_ret keepsNoNaN_throw keepsNoNaN_outOfFuel
  keepsNoNaN_gets keepsNoNaN_liftOutcome keepsNoNaN_requireObject
  keepsNoNaN_getCursor keepsNoNaN_updateCursor keepsNoNaN_setData
  keepsNoNaN_bind keepsNoNaN_tryCatch keepsNoNaN_forEach
  keepsNoNaN_newObject keepsNoNaN_goog_object_clone keepsNoNaN_copy
  keepsNoNaN_writeProp : keeps.

#[local] Hint Extern 1 (keepsNoNaN (if ?b then _ else _)) =>
  destruct b : keeps.

#[local] Hint Extern 2 (keepsNoNaN (match ?x with _ => _ end)) =>
  destruct x : keeps.

Lemma keepsNoNaN_Cursor_dispatchEvent this e :
  keepsNoNaN (Cursor_dispatchEvent this e).
Proof. unfold Cursor_dispatchEvent. auto 10 with keeps. Qed.

Lemma keepsNoNaN_Cursor_getPosition this :
  keepsNoNaN (Cursor_getPosition this).
Proof. unfold Cursor_getPosition. auto with keeps. Qed.

Lemma keepsNoNaN_Cursor_getRowCount this :
  keepsNoNaN (Cursor_getRowCount this).
Proof. by apply keepsNoNaN_heap. Qed.

Lemma keepsNoNaN_Cursor_isDirty this : keepsNoNaN (Cursor_isDirty this).
Proof. unfold Cursor_isDirty. auto 10 with keeps. Qed.

Lemma keepsNoNaN_Cursor_assertCurrentRecord this :
  keepsNoNaN (Cursor_assertCurrentRecord this).
Proof. unfold Cursor_assertCurrentRecord. auto 10 with keeps. Qed.

Lemma keepsNoNaN_Cursor_assertValidPosition this position :
  keepsNoNaN (Cursor_assertValidPosition this position).
Proof.
  unfold Cursor_assertValidPosition.
  apply keepsNoNaN_bind; [apply keepsNoNaN_Cursor_getRowCount|].
  intros rowCount. destruct position; auto with keeps.
Qed.

Lemma keepsNoNaN_Datasource_assertValidRow rowIndex opt_maxIndex :
  keepsNoNaN (Datasource_assertValidRow rowIndex opt_maxIndex).
Proof. unfold Datasource_assertValidRow. auto 10 with keeps. Qed.

#[local] Hint Resolve keepsNoNaN_Cursor_dispatchEvent
  keepsNoNaN_Cursor_getPosition keepsNoNaN_Cursor_getRowCount
  keepsNoNaN_Cursor_isDirty keepsNoNaN_Cursor_assertCurrentRecord
  keepsNoNaN_Cursor_assertValidPosition
  keepsNoNaN_Datasource_assertValidRow : keeps.

Lemma keepsNoNaN_SimpleDatasource_get rowIndex :
  keepsNoNaN (SimpleDatasource_get rowIndex).
Proof. unfold SimpleDatasource_get. auto 10 with keeps. Qed.

#[local] Hint Resolve keepsNoNaN_SimpleDatasource_get : keeps.

Lemma keepsNoNaN_Cursor_reloadRecord this :
  keepsNoNaN (Cursor_reloadRecord this).
Proof.
  unfold Cursor_reloadRecord, SimpleDatasource_getColumns.
  apply keepsNoNaN_bind; [auto with keeps|]. intros c.
  destruct (position_ c); auto 20 with keeps.
Qed.

#[local] Hint Resolve keepsNoNaN_Cursor_reloadRecord : keeps.

Lemma keepsNoNaN_Cursor_moveInternal this newPosition :
  keepsNoNaN (Cursor_moveInternal this newPosition).
Proof. unfold Cursor_moveInternal. auto 10 with keeps. Qed.

#[local] Hint Resolve keepsNoNaN_Cursor_moveInternal : keeps.

Lemma keepsNoNaN_Cursor_handleDataSourceRowInsert this event :
  keepsNoNaN (Cursor_handleDataSourceRowInsert this event).
Proof. unfold Cursor_handleDataSourceRowInsert. auto 10 with keeps. Qed.

#[local] Hint Resolve keepsNoNaN_Cursor_handleDataSourceRowInsert : keeps.

Lemma keepsNoNaN_Datasource_dispatchEvent e :
  keepsNoNaN (Datasource_dispatchEvent e).
Proof.
  unfold Datasource_dispatchEvent.
  apply keepsNoNaN_bind; [by apply keepsNoNaN_heap|]. intros _.
  destruct (dsType e); auto 10 with keeps.
Qed.

#[local] Hint Resolve keepsNoNaN_Datasource_dispatchEvent : keeps.

Lemma keepsNoNaN_SimpleDatasource_insert rowIndex newRecord :
  keepsNoNaN (SimpleDatasource_insert rowIndex newRecord).
Proof. unfold SimpleDatasource_insert. auto 10 with keeps. Qed.

Lemma keepsNoNaN_SimpleDatasource_replace rowIndex newRecord :
  keepsNoNaN (SimpleDatasource_replace rowIndex newRecord).
Proof. unfold SimpleDatasource_replace. auto 10 with keeps. Qed.

Lemma keepsNoNaN_SimpleDatasource_remove rowIndex :
  keepsNoNaN (SimpleDatasource_remove rowIndex).
Proof. unfold SimpleDatasource_remove. auto 10 with keeps. Qed.

#[local] Hint Resolve keepsNoNaN_SimpleDatasource_insert
  keepsNoNaN_SimpleDatasource_replace keepsNoNaN_SimpleDatasource_remove
  : keeps.

Lemma keepsNoNaN_SimpleDatasource_add newRecord :
  keepsNoNaN (SimpleDatasource_add newRecord).
Proof.
  unfold SimpleDatasource_add, SimpleDatasource_getCount.
  auto 10 with keeps.
Qed.

Lemma keepsNoNaN_Datasource_atomicReplace rowIndex expected newValues :
  keepsNoNaN (Datasource_atomicReplace rowIndex expected newValues).
Proof.
  unfold Datasource_atomicReplace, goog_asserts_assertObject.
  auto 20 with keeps.
Qed.

Lemma keepsNoNaN_saveCatch this p values attempted exception :
  keepsNoNaN (saveCatch this p values attempted exception).
Proof. unfold saveCatch. destruct exception; auto 20 with keeps. Qed.

#[local] Hint Resolve keepsNoNaN_SimpleDatasource_add
  keepsNoNaN_Datasource_atomicReplace keepsNoNaN_saveCatch : keeps.

(** The part of save that writes to the Datasource. *)
Lemma keepsNoNaN_save_write this (c : Cursor) (opt_forceOverwrite : bool)
    (opt_attemptedPosition : option Position) :
  keepsNoNaN
    (match position_ c with
     | NEW =>
         values <- requireObject (currentRecordValues_ c) ;;
         pos <- SimpleDatasource_add values ;;
         ret (Index pos)
     | Index p =>
         values <- requireObject (currentRecordValues_ c) ;;
         _ <- (if opt_forceOverwrite
               then SimpleDatasource_replace p values
               else
                 asLoaded <- requireObject (currentRecordAsLoaded_ c) ;;
                 tryCatch
                   (Datasource_atomicReplace p asLoaded values)
                   (saveCatch this p values opt_attemptedPosition)) ;;
         ret (Index p)
     | BOF | EOF => throw NoCurrentRecord
     end).
Proof. destruct (position_ c); auto 20 with keeps. Qed.

Lemma keepsNoNaN_Cursor_save this suppress force attempted :
  keepsNoNaN (Cursor_save this suppress force attempted).
Proof.
  unfold Cursor_save.
  apply keepsNoNaN_bind; [auto with keeps|]. intros _.
  apply keepsNoNaN_bind; [auto with keeps|]. intros c.
  apply keepsNoNaN_bind; [apply keepsNoNaN_save_write|]. intros newPosition.
  auto 20 with keeps.
Qed.

Lemma keepsNoNaN_Cursor_getLoadedValues this :
  keepsNoNaN (Cursor_getLoadedValues this).
Proof. unfold Cursor_getLoadedValues. auto 10 with keeps. Qed.

Lemma keepsNoNaN_Cursor_getCurrentValues this :
  keepsNoNaN (Cursor_getCurrentValues this).
Proof. unfold Cursor_getCurrentValues. auto 10 with keeps. Qed.

#[local] Hint Resolve keepsNoNaN_Cursor_getLoadedValues : keeps.

Lemma keepsNoNaN_Cursor_setFieldValue this fieldName newValue :
  selfEqual newValue ->
  keepsNoNaN (Cursor_setFieldValue this fieldName newValue).
Proof.
  intros Hv.
  unfold Cursor_setFieldValue, Cursor_assertValidField,
    SimpleDatasource_getColumns.
  auto 20 with keeps.
Qed.

Lemma keepsNoNaN_Cursor_maybeDiscardWith discard this opt_newPosition :
  (forall this opt, keepsNoNaN (discard this opt)) ->
  keepsNoNaN (Cursor_maybeDiscardWith discard this opt_newPosition).
Proof. intros Hd. unfold Cursor_maybeDiscardWith. auto 20 with keeps. Qed.

Lemma keepsNoNaN_Cursor_setPositionWith discard this newPosition :
  (forall this opt, keepsNoNaN (discard this opt)) ->
  keepsNoNaN (Cursor_setPositionWith discard this newPosition).
Proof.
  intros Hd. unfold Cursor_setPositionWith.
  apply keepsNoNaN_bind; [auto with keeps|]. intros _.
  apply keepsNoNaN_bind; [by apply keepsNoNaN_Cursor_maybeDiscardWith|].
  intros _. auto 10 with keeps.
Qed.

Lemma keepsNoNaN_Cursor_discardWith setPosition this opt_newPosition :
  (forall this position, keepsNoNaN (setPosition this position)) ->
  keepsNoNaN (Cursor_discardWith setPosition this opt_newPosition).
Proof. intros Hs. unfold Cursor_discardWith. auto 30 with keeps. Qed.

Lemma keepsNoNaN_Cursor_discard_fuel fuel : forall this opt_newPosition,
  keepsNoNaN (Cursor_discard_fuel fuel this opt_newPosition).
Proof.
  induction fuel as [|fuel IH]; intros this opt_newPosition; simpl.
  - apply keepsNoNaN_outOfFuel.
  - apply keepsNoNaN_Cursor_discardWith. intros this' position.
    by apply keepsNoNaN_Cursor_setPositionWith.
Qed.

Lemma keepsNoNaN_Cursor_discard this opt_newPosition :
  keepsNoNaN (Cursor_discard this opt_newPosition).
Proof. apply keepsNoNaN_Cursor_discard_fuel. Qed.

Lemma keepsNoNaN_Cursor_maybeDiscard this opt_newPosition :
  keepsNoNaN (Cursor_maybeDiscard this opt_newPosition).
Proof.
  apply keepsNoNaN_Cursor_maybeDiscardWith, keepsNoNaN_Cursor_discard.
Qed.

Lemma keepsNoNaN_Cursor_setPosition this newPosition :
  keepsNoNaN (Cursor_setPosition this newPosition).
Proof.
  apply keepsNoNaN_Cursor_setPositionWith, keepsNoNaN_Cursor_discard.
Qed.

#[local] Hint Resolve keepsNoNaN_Cursor_maybeDiscard
  keepsNoNaN_Cursor_setPosition keepsNoNaN_Cursor_discard : keeps.

Lemma keepsNoNaN_Cursor_moveRelative this numRowsToMove :
  keepsNoNaN (Cursor_moveRelative this numRowsToMove).
Proof. unfold Cursor_moveRelative. auto 20 with keeps. Qed.

Lemma keepsNoNaN_Cursor_moveFirst this : keepsNoNaN (Cursor_moveFirst this).
Proof. unfold Cursor_moveFirst. auto 20 with keeps. Qed.

Lemma keepsNoNaN_Cursor_moveLast this : keepsNoNaN (Cursor_moveLast this).
Proof. unfold Cursor_moveLast. auto 20 with keeps. Qed.

Lemma keepsNoNaN_Cursor_moveNew this : keepsNoNaN (Cursor_moveNew this).
Proof. unfold Cursor_moveNew. auto 20 with keeps. Qed.

(** ** Inversion of a run that returned *)

Lemma bind_Return_inv {A B} (m : M A) (k : A -> M B) w b w' :
  bind m k w = (Return b, w') ->
  exists a w1, m w = (Return a, w1) /\ k a w1 = (Return b, w').
Proof.
  rewrite run_bind. destruct (m w) as [[a| |] w1]; try discriminate.
  intros H. by exists a, w1.
Qed.

Lemma Cursor_reloadRecord_Return w this w' :
  Cursor_reloadRecord this w = (Return tt, w') ->
  exists c c', cursors w !! this = Some c /\ reloadedFrom this c w w' c'.
Proof.
  intros Hr.
  destruct (cursors w !! this) as [c|] eqn:H.
  2:{ unfold Cursor_reloadRecord, getCursor in Hr.
      rewrite run_bind, H in Hr. discriminate. }
  destruct (decide (validPosition (rowCount w) (position_ c))) as [Hv|Hv].
  - destruct (Cursor_reloadRecord_valid _ _ _ H Hv) as (w2 & c2 & Hr2 & Hre).
    exists c, c2. split; [reflexivity|]. congruence.
  - exfalso. destruct (position_ c) as [| | |p] eqn:Hp; try (by apply Hv).
    simpl in Hv. unfold Cursor_reloadRecord in Hr.
    rewrite (bind_Return _ _ _ _ _ (getCursor_run _ _ _ H)), Hp in Hr.
    rewrite run_bind in Hr. unfold newObject at 1 in Hr.
    cbv beta iota in Hr.
    erewrite bind_Return in Hr by (apply updateCursor_run; exact H).
    rewrite run_bind in Hr. unfold newObject at 1 in Hr.
    cbv beta iota in Hr.
    erewrite bind_Return in Hr
      by (apply updateCursor_run; eapply setCursor_lookup; exact H).
    rewrite run_bind in Hr.
    unfold SimpleDatasource_getColumns at 1, gets at 1 in Hr.
    cbv beta iota in Hr.
    erewrite bind_Throw in Hr; [discriminate|].
    by apply SimpleDatasource_get_invalid.
Qed.

Lemma dispatch_keeps_clean w this c e :
  cursors w !! this = Some c ->
  dirtyOf (heap w) c = Return false ->
  exists c',
    cursors (setCursor this (logged e c) w) !! this = Some c' /\
    dirtyOf (heap (setCursor this (logged e c) w)) c' = Return false.
Proof.
  intros H Hd. exists (logged e c). split; [|exact Hd].
  by eapply setCursor_lookup.
Qed.

Lemma Cursor_moveInternal_Return w this newPosition w' :
  noNaN w ->
  Cursor_moveInternal this newPosition w = (Return tt, w') ->
  exists c',
    cursors w' !! this = Some c' /\ dirtyOf (heap w') c' = Return false.
Proof.
  unfold Cursor_moveInternal. intros Hn Hm.
  apply bind_Return_inv in Hm as (old & w1 & H1 & Hm).
  apply bind_Return_inv in Hm as ([] & w2 & H2 & Hm).
  apply bind_Return_inv in Hm as ([] & w3 & H3 & Hm).
  apply bind_Return_inv in Hm as (b & w4 & H4 & Hm).
  pose proof (keepsNoNaN_Cursor_getPosition _ _ _ _ Hn H1) as Hn1.
  pose proof (keepsNoNaN_updateCursor _ _ _ _ _ Hn1 H2) as Hn2.
  apply Cursor_reloadRecord_Return in H3 as (c2 & c3 & Hc2 & Hre).
  destruct Hre as [Hl _ _ _ Hcl _ _ _ _ _]. specialize (Hcl Hn2).
  rewrite (Cursor_dispatchEvent_run _ _ _ _ Hl) in H4.
  injection H4 as _ <-. injection Hm as <-.
  by eapply dispatch_keeps_clean.
Qed.

Lemma Cursor_save_Return_clean w this suppress force attempted p w' :
  noNaN w ->
  Cursor_save this suppress force attempted w = (Return p, w') ->
  exists c',
    cursors w' !! this = Some c' /\ dirtyOf (heap w') c' = Return false.
Proof.
  unfold Cursor_save. intros Hn Hs.
  apply bind_Return_inv in Hs as ([] & w1 & H1 & Hs).
  apply bind_Return_inv in Hs as (c & w2 & H2 & Hs).
  apply bind_Return_inv in Hs as (newPosition & w3 & H3 & Hs).
  apply bind_Return_inv in Hs as ([] & w4 & H4 & Hs).
  apply bind_Return_inv in Hs as (b & w5 & H5 & Hs).
  apply bind_Return_inv in Hs as (position & w6 & H6 & Hs).
  apply bind_Return_inv in Hs as ([] & w7 & H7 & Hs).
  injection Hs as _ <-.
  pose proof (keepsNoNaN_Cursor_assertCurrentRecord _ _ _ _ Hn H1) as Hn1.
  pose proof (keepsNoNaN_getCursor _ _ _ _ Hn1 H2) as Hn2.
  pose proof (keepsNoNaN_save_write _ _ _ _ _ _ _ Hn2 H3) as Hn3.
  pose proof (keepsNoNaN_Cursor_reloadRecord _ _ _ _ Hn3 H4) as Hn4.
  apply Cursor_reloadRecord_Return in H4 as (c3 & c4 & Hc3 & Hre).
  destruct Hre as [Hl _ _ _ Hcl _ _ _ _ _]. specialize (Hcl Hn3).
  rewrite (Cursor_dispatchEvent_run _ _ _ _ Hl) in H5.
  injection H5 as _ <-.
  destruct (dispatch_keeps_clean _ _ _ (RowEvent SAVE newPosition) Hl Hcl)
    as (c5 & Hl5 & Hcl5).
  rewrite (Cursor_getPosition_run _ _ _ Hl5) in H6. injection H6 as _ <-.
  destruct (_ && _).
  - by apply Cursor_moveInternal_Return in H7.
  - injection H7 as <-. by exists c5.
Qed.

Lemma Cursor_discardWith_clean setPosition w this c opt_newPosition :
  cursors w !! this = Some c ->
  position_ c <> BOF -> position_ c <> EOF ->
  dirtyOf (heap w) c = Return false ->
  Cursor_discardWith setPosition this opt_newPosition w = (Return tt, w).
Proof.
  intros H Hb He Hd. unfold Cursor_discardWith.
  rewrite run_bind, (Cursor_assertCurrentRecord_run _ _ _ H).
  destruct (position_ c); try congruence;
    by rewrite run_bind, (Cursor_isDirty_dirtyOf _ _ _ H), Hd.
Qed.

Lemma noNaN_clone w (l : nat) :
  noNaN w -> noNaN (withHeap (heap w ++ [deref (heap w) l]) w).
Proof.
  intros Hn. unfold noNaN. simpl. apply Forall_app. split; [exact Hn|].
  by apply Forall_singleton, holdsNoNaN_deref.
Qed.

Lemma Cursor_discard_leaves_clean w this c opt_newPosition o w' :
  cursors w !! this = Some c ->
  recordInvariant c ->
  noNaN w ->
  Cursor_discard this opt_newPosition w = (o, w') ->
  exists c',
    cursors w' !! this = Some c' /\ dirtyOf (heap w') c' = Return false.
Proof.
  intros H Hinv HnoNaN. rewrite Cursor_discard_first. intros Hdis.
  unfold recordInvariant in Hinv.
  destruct (decide (position_ c = BOF \/ position_ c = EOF)) as [Hp|Hp].
  { assert (currentRecordValues_ c = None) as Hn
      by (destruct Hp as [Hp|Hp]; rewrite Hp in Hinv; tauto).
    unfold Cursor_discardWith in Hdis.
    rewrite run_bind, (Cursor_assertCurrentRecord_run _ _ _ H) in Hdis.
    exists c. unfold dirtyOf. rewrite Hn.
    destruct Hp as [Hp|Hp]; rewrite Hp in Hdis; by injection Hdis as _ <-. }
  assert (Hb : position_ c <> BOF) by tauto.
  assert (He : position_ c <> EOF) by tauto.
  assert (Hrec : is_Some (currentRecordValues_ c) /\
                 is_Some (currentRecordAsLoaded_ c))
    by (destruct (position_ c); tauto).
  destruct Hrec as [[values Hv] [asLoaded Hl]].
  destruct (isDirtyLoops (deref (heap w) values) (deref (heap w) asLoaded))
    eqn:Hd.
  2:{ assert (Hd' : dirtyOf (heap w) c = Return false)
        by (unfold dirtyOf; by rewrite Hv, Hl, Hd).
      rewrite (Cursor_discardWith_clean _ _ _ _ _ H Hb He Hd') in Hdis.
      injection Hdis as _ <-. by exists c. }
  assert (Hd' : dirtyOf (heap w) c = Return true)
    by (unfold dirtyOf; by rewrite Hv, Hl, Hd).
  rewrite (Cursor_discardWith_dirty _ _ _ _ _ _ H Hb He Hd' Hl) in Hdis.
  set (c1 := logged (MovementEvent DISCARD (position_ c) opt_newPosition)
               (withCurrentRecordValues (Some (length (heap w))) c)) in *.
  set (w1 := setCursor this c1
               (withHeap (heap w ++ [deref (heap w) asLoaded]) w)) in *.
  assert (H1 : cursors w1 !! this = Some c1)
    by (eapply setCursor_lookup; exact H).
  assert (Hc1 : dirtyOf (heap w1) c1 = Return false)
    by (apply discarded_clean; [exact Hl|by apply holdsNoNaN_deref]).
  assert (Hn1 : noNaN w1) by (by apply (noNaN_clone w)).
  destruct (bool_decide (position_ c = NEW)).
  - destruct (decide (0 <= rowCount w - 1 < rowCount w1)) as [Hr|Hr].
    + destruct (Cursor_setPositionWith_clean (Cursor_discard_fuel 1) w1 this
                  c1 (Index (rowCount w - 1)) H1 Hc1 Hr)
        as (w2 & c2 & Hs & Hl2 & _ & Hc2 & _).
      specialize (Hc2 Hn1).
      rewrite (bind_Return _ _ _ _ _ Hs) in Hdis.
      rewrite (bind_Return _ _ _ _ _ (Cursor_getPosition_run _ _ _ Hl2)) in Hdis.
      rewrite (bind_Return _ _ _ _ _ (Cursor_dispatchEvent_run _ _ _ _ Hl2))
        in Hdis.
      injection Hdis as _ <-. by eapply dispatch_keeps_clean.
    + erewrite bind_Throw in Hdis.
      * injection Hdis as _ <-. by exists c1.
      * by apply Cursor_setPositionWith_invalid.
  - rewrite run_bind in Hdis. unfold ret at 1 in Hdis.
    rewrite (bind_Return _ _ _ _ _ (Cursor_getPosition_run _ _ _ H1)) in Hdis.
    rewrite (bind_Return _ _ _ _ _ (Cursor_dispatchEvent_run _ _ _ _ H1))
      in Hdis.
    injection Hdis as _ <-. by eapply dispatch_keeps_clean.
Qed.

(** ** isDirty as a symmetric diff *)

Lemma isDirty_clean_run w this c :
  cursors w !! this = Some c ->
  dirtyOf (heap w) c = Return false ->
  Cursor_isDirty this w = (Return false, w).
Proof. intros H Hd. by rewrite (Cursor_isDirty_dirtyOf _ _ _ H), Hd. Qed.

(** C8.  isDirty answers true exactly when currentValues and loadedValues
    differ at some key: a key owned by one side only, or owned by both
    with loosely unequal values.  It answers false when no record is
    loaded, and so right after the construction of the Cursor.  When no
    record of the store holds NaN (a value loosely unequal to itself), it
    also answers false right after discard() (for a Cursor that satisfies
    the record invariant) and right after a save() that returned. *)
Theorem isDirty_symmetric_diff :
  (forall w this c (values asLoaded : nat),
      cursors w !! this = Some c ->
      currentRecordValues_ c = Some values ->
      currentRecordAsLoaded_ c = Some asLoaded ->
      exists b,
        Cursor_isDirty this w = (Return b, w) /\
        (b = true <->
         exists k, dirtyAt (deref (heap w) values)
                     (deref (heap w) asLoaded) k)) /\
  (forall w this c,
      cursors w !! this = Some c ->
      currentRecordValues_ c = None ->
      Cursor_isDirty this w = (Return false, w)) /\
  (forall w,
      exists this w',
        Cursor_new w = (Return this, w') /\
        Cursor_isDirty this w' = (Return false, w')) /\
  (forall w this c opt_newPosition o w',
      cursors w !! this = Some c ->
      recordInvariant c ->
      noNaN w ->
      Cursor_discard this opt_newPosition w = (o, w') ->
      Cursor_isDirty this w' = (Return false, w')) /\
  (forall w this suppress force attempted p w',
      noNaN w ->
      Cursor_save this suppress force attempted w = (Return p, w') ->
      Cursor_isDirty this w' = (Return false, w')).
Proof.
  split; [|split; [|split; [|split]]].
  - intros w this c values asLoaded H Hv Hl.
    eexists. split; [by apply (Cursor_isDirty_run _ _ c)|].
    apply isDirtyLoops_true.
  - intros w this c. apply Cursor_isDirty_no_record.
  - intros w. eexists _, _. split; [reflexivity|].
    apply (Cursor_isDirty_no_record _ _ initialCursor); [|reflexivity].
    simpl. rewrite lookup_app_r by lia.
    by replace (length (cursors w) - length (cursors w))%nat with 0%nat by lia.
  - intros w this c opt o w' H Hinv Hn Hd.
    destruct (Cursor_discard_leaves_clean _ _ _ _ _ _ H Hinv Hn Hd)
      as (c' & Hl & Hc).
    by apply (isDirty_clean_run _ _ c').
  - intros w this suppress force attempted p w' Hn Hs.
    destruct (Cursor_save_Return_clean _ _ _ _ _ _ _ Hn Hs) as (c' & Hl & Hc).
    by apply (isDirty_clean_run _ _ c').
Qed.

(** ** Rows inserted at the end move no Cursor *)

Lemma forEach_noop {A} (body : A -> M unit) (l : list A) w :
  (forall x, In x l -> body x w = (Return tt, w)) ->
  forEach body l w = (Return tt, w).
Proof.
  induction l as [|x l IH]; intros H; [reflexivity|].
  simpl. rewrite (bind_Return _ _ _ _ _ (H x (or_introl eq_refl))).
  apply IH. intros y Hy. apply H. by right.
Qed.

Lemma Cursor_handleDataSourceRowInsert_unmoved w this c event :
  cursors w !! this = Some c ->
  fold_left shiftForInsert (getAffectedRows event) (position_ c) = position_ c ->
  Cursor_handleDataSourceRowInsert this event w = (Return tt, w).
Proof.
  intros H Hf. unfold Cursor_handleDataSourceRowInsert.
  rewrite (bind_Return _ _ _ _ _ (Cursor_getPosition_run _ _ _ H)), Hf.
  rewrite bool_decide_eq_false_2; [reflexivity|]. by intros ?.
Qed.

Lemma shiftForInsert_beyond position rowIndex :
  (forall q, position = Index q -> q < rowIndex) ->
  shiftForInsert position rowIndex = position.
Proof.
  intros H. destruct position as [| | |q]; try reflexivity. simpl.
  specialize (H q eq_refl). by replace (rowIndex <=? q) with false by lia.
Qed.

Lemma Datasource_assertValidRow_max w rowIndex maxIndex :
  0 <= rowIndex <= maxIndex ->
  Datasource_assertValidRow rowIndex (Some maxIndex) w = (Return tt, w).
Proof.
  intros H. unfold Datasource_assertValidRow.
  replace (rowIndex <? 0) with false by lia.
  rewrite run_bind. unfold gets at 1. cbv beta iota.
  by replace (rowIndex >? maxIndex) with false by lia.
Qed.

Lemma Datasource_dispatchEvent_unmoved w rowIndexes :
  Forall (fun c => fold_left shiftForInsert rowIndexes (position_ c)
                   = position_ c) (cursors w) ->
  Datasource_dispatchEvent (DsRowEvent ROWS_INSERT rowIndexes) w
    = (Return tt, dsLogged (DsRowEvent ROWS_INSERT rowIndexes) w).
Proof.
  intros Hall. unfold Datasource_dispatchEvent.
  rewrite run_bind. unfold modify at 1. cbv beta iota.
  fold (dsLogged (DsRowEvent ROWS_INSERT rowIndexes) w).
  change (dsType (DsRowEvent ROWS_INSERT rowIndexes)) with ROWS_INSERT.
  cbv iota.
  rewrite run_bind. unfold gets at 1. cbv beta iota.
  apply forEach_noop.
  intros this Hin. apply in_seq in Hin. simpl in Hin.
  destruct (cursors w !! this) as [c|] eqn:Hc.
  2:{ apply lookup_ge_None in Hc. lia. }
  apply (Cursor_handleDataSourceRowInsert_unmoved _ _ c); [exact Hc|].
  rewrite Forall_forall in Hall.
  apply Hall. by eapply list_elem_of_lookup_2.
Qed.

Lemma SimpleDatasource_add_run w newRecord :
  Forall (fun c => belowRowCount (rowCount w) (position_ c)) (cursors w) ->
  SimpleDatasource_add newRecord w = (Return (rowCount w), added newRecord w).
Proof.
  intros Hall.
  assert (Hnn : 0 <= rowCount w) by (unfold rowCount; lia).
  unfold SimpleDatasource_add.
  rewrite run_bind. unfold SimpleDatasource_getCount at 1, gets at 1.
  cbv beta iota. fold (rowCount w).
  assert (Hi : SimpleDatasource_insert (rowCount w) newRecord w
               = (Return tt, added newRecord w)).
  { unfold SimpleDatasource_insert.
    rewrite run_bind. unfold gets at 1. cbv beta iota.
    fold (rowCount w).
    rewrite (bind_Return _ _ _ _ _
               (Datasource_assertValidRow_max w _ _ (conj Hnn (Z.le_refl _)))).
    rewrite run_bind. unfold goog_object_clone at 1. cbv beta iota.
    rewrite run_bind. unfold setData at 1, modify at 1. cbv beta iota.
    rewrite Datasource_dispatchEvent_unmoved.
    - unfold added, dsLogged, withDataSource, withHeap, splice, rowCount.
      simpl. by rewrite Nat2Z.id, take_ge, drop_ge by lia.
    - simpl. eapply Forall_impl; [exact Hall|]. simpl. intros c Hc.
      apply shiftForInsert_beyond. intros q Hq.
      rewrite Hq in Hc. simpl in Hc. lia. }
  by rewrite (bind_Return _ _ _ _ _ Hi).
Qed.

Lemma tryCatch_Throw {A} (m : M A) (h : Exception -> M A) w e w' :
  m w = (Throw e, w') -> tryCatch m h w = h e w'.
Proof. intros H. unfold tryCatch. by rewrite H. Qed.

Lemma tryCatch_Return {A} (m : M A) (h : Exception -> M A) w a w' :
  m w = (Return a, w') -> tryCatch m h w = (Return a, w').
Proof. intros H. unfold tryCatch. by rewrite H. Qed.

Lemma records_heap_ext w w' t :
  dataAllocated w ->
  dataSource_ w' = dataSource_ w ->
  heap w' = heap w ++ t ->
  records w' = records w.
Proof.
  intros Ha Hd Hh. unfold records. rewrite Hd, Hh. by apply fmap_deref_app.
Qed.

Lemma dataAllocated_replaced w rowIndex newRecord :
  dataAllocated w -> dataAllocated (replaced rowIndex newRecord w).
Proof.
  unfold dataAllocated, replaced, splice. simpl. intros H.
  rewrite length_app. simpl.
  apply Forall_app. split; [|apply Forall_cons; split].
  - apply Forall_take. eapply Forall_impl; [exact H|]. simpl. intros. lia.
  - lia.
  - apply Forall_drop. eapply Forall_impl; [exact H|]. simpl. intros. lia.
Qed.

(** ** save *)

Lemma records_added w newRecord :
  dataAllocated w ->
  records (added newRecord w) = records w ++ [deref (heap w) newRecord].
Proof.
  intros Ha. unfold records, added. simpl.
  rewrite fmap_app. simpl. rewrite deref_snoc. f_equal.
  by apply fmap_deref_app.
Qed.

Lemma dataAllocated_added w newRecord :
  dataAllocated w -> dataAllocated (added newRecord w).
Proof.
  unfold dataAllocated, added. simpl. intros H.
  rewrite length_app. simpl. apply Forall_app. split.
  - eapply Forall_impl; [exact H|]. simpl. intros. lia.
  - apply Forall_cons. split; [lia|apply Forall_nil_2].
Qed.

(** save from NEW, up to the final move. *)
Lemma Cursor_save_NEW_prefix w this c values suppress force attempted :
  cursors w !! this = Some c ->
  position_ c = NEW ->
  currentRecordValues_ c = Some values ->
  Forall (fun c' => belowRowCount (rowCount w) (position_ c')) (cursors w) ->
  let w1 := added values w in
  let m := length (heap w1) in
  let c3 := logged (RowEvent SAVE (Index (rowCount w)))
              (withRecords (Some m) (Some (S m)) c) in
  let w3 := {| heap := heap w1 ++ [∅; ∅];
               dataSource_ := dataSource_ w1;
               cursors := <[this := c3]> (cursors w1) |} in
  Cursor_save this suppress force attempted w =
    (if suppress then (Return (Index (rowCount w)), w3)
     else bind (Cursor_moveInternal this (Index (rowCount w)))
            (fun _ => ret (Index (rowCount w))) w3).
Proof.
  intros H Hp Hv Hall w1 m c3 w3. unfold Cursor_save.
  rewrite run_bind, (Cursor_assertCurrentRecord_run _ _ _ H), Hp.
  rewrite (bind_Return _ _ _ _ _ (getCursor_run _ _ _ H)), Hp, Hv.
  assert (Hbranch :
    (values0 <- requireObject (Some values) ;;
     pos <- SimpleDatasource_add values0 ;; ret (Index pos)) w
    = (Return (Index (rowCount w)), w1)).
  { rewrite run_bind. unfold requireObject, ret at 1.
    by rewrite (bind_Return _ _ _ _ _ (SimpleDatasource_add_run _ _ Hall)). }
  rewrite (bind_Return _ _ _ _ _ Hbranch).
  assert (H1 : cursors w1 !! this = Some c) by exact H.
  rewrite (bind_Return _ _ _ _ _ (Cursor_reloadRecord_NEW _ _ _ H1 Hp)).
  fold m.
  set (c2 := withRecords (Some m) (Some (S m)) c).
  set (w2 := {| heap := heap w1 ++ [∅; ∅]; dataSource_ := dataSource_ w1;
                cursors := <[this := c2]> (cursors w1) |}).
  assert (H2 : cursors w2 !! this = Some c2).
  { simpl. apply list_lookup_insert_eq. by eapply lookup_lt_Some. }
  rewrite (bind_Return _ _ _ _ _ (Cursor_dispatchEvent_run _ _ _ _ H2)).
  assert (Hw3 : setCursor this (logged (RowEvent SAVE (Index (rowCount w))) c2) w2
                = w3).
  { unfold setCursor, withCursors, w3, w2. simpl.
    by rewrite list_insert_insert_eq. }
  rewrite Hw3.
  assert (H3 : cursors w3 !! this = Some c3).
  { simpl. apply list_lookup_insert_eq. by eapply lookup_lt_Some. }
  rewrite (bind_Return _ _ _ _ _ (Cursor_getPosition_run _ _ _ H3)).
  change (position_ c3) with (position_ c). rewrite Hp.
  rewrite bool_decide_eq_true_2 by discriminate.
  destruct suppress; reflexivity.
Qed.

(** C4.  For a Cursor at NEW, when no Cursor of the Datasource rests on
    a row index at or beyond the row count (where the removal of a row
    can leave one), save() appends a copy of currentValues to the
    Datasource: the row count grows by exactly one and save returns the
    index of the new row.  The Cursor then rests on that index; with
    suppressMoveTo it stays at NEW and getCurrentValues() returns an
    empty record. *)
Theorem save_from_NEW (w : World) (this : nat) (c : Cursor) (values : nat)
    (suppress force : bool) (attempted : option Position) :
  cursors w !! this = Some c ->
  position_ c = NEW ->
  currentRecordValues_ c = Some values ->
  dataAllocated w ->
  Forall (fun c' => belowRowCount (rowCount w) (position_ c')) (cursors w) ->
  exists w',
    Cursor_save this suppress force attempted w
      = (Return (Index (rowCount w)), w') /\
    rowCount w' = rowCount w + 1 /\
    records w' = records w ++ [deref (heap w) values] /\
    (suppress = false ->
     position_ <$> cursors w' !! this = Some (Index (rowCount w))) /\
    (suppress = true ->
     position_ <$> cursors w' !! this = Some NEW /\
     exists l w'',
       Cursor_getCurrentValues this w' = (Return l, w'') /\
       deref (heap w'') l = ∅).
Proof.
  intros H Hp Hv Ha Hall.
  rewrite (Cursor_save_NEW_prefix _ _ _ _ _ _ _ H Hp Hv Hall).
  set (w1 := added values w).
  set (m := length (heap w1)).
  set (c3 := logged (RowEvent SAVE (Index (rowCount w)))
               (withRecords (Some m) (Some (S m)) c)).
  set (w3 := {| heap := heap w1 ++ [∅; ∅]; dataSource_ := dataSource_ w1;
                cursors := <[this := c3]> (cursors w1) |}).
  assert (H3 : cursors w3 !! this = Some c3).
  { simpl. apply list_lookup_insert_eq. by eapply lookup_lt_Some. }
  assert (Hrc : rowCount w3 = rowCount w + 1).
  { unfold rowCount. simpl. rewrite length_app. simpl. lia. }
  assert (Hrec : records w3 = records w ++ [deref (heap w) values]).
  { rewrite <- (records_added w values Ha).
    apply (records_heap_ext w1 w3 [∅; ∅]);
      [by apply dataAllocated_added|reflexivity|reflexivity]. }
  destruct suppress.
  - exists w3. split; [reflexivity|]. split; [exact Hrc|].
    split; [exact Hrec|]. split; [discriminate|]. intros _.
    split; [by rewrite H3; simpl; rewrite Hp|].
    eexists _, _. split.
    + apply (Cursor_getCurrentValues_run _ _ c3 m); try done.
      * change (position_ c3) with (position_ c). by rewrite Hp.
      * change (position_ c3) with (position_ c). by rewrite Hp.
    + simpl. rewrite deref_snoc.
      rewrite (deref_app_at _ _ m 0%nat) by (unfold m, w1; simpl; lia).
      reflexivity.
  - assert (Hvalid : validPosition (rowCount w3) (Index (rowCount w))).
    { simpl. rewrite Hrc. unfold rowCount. lia. }
    destruct (Cursor_moveInternal_valid _ _ _ _ H3 Hvalid)
      as (w4 & c4 & Hm & Hmoved).
    destruct Hmoved as [Hl4 Hp4 _ _ _ _ Hds4 [t Ht] _ _].
    exists w4. rewrite (bind_Return _ _ _ _ _ Hm).
    split; [reflexivity|]. split; [|split; [|split]].
    + unfold rowCount in *. by rewrite Hds4.
    + rewrite <- Hrec. apply (records_heap_ext w3 w4 t); [|done|done].
      apply (dataAllocated_withHeap_app w1 [∅; ∅]).
      by apply dataAllocated_added.
    + intros _. by rewrite Hl4; simpl; rewrite Hp4.
    + discriminate.
Qed.

Lemma rowCount_replaced w rowIndex newRecord :
  0 <= rowIndex < rowCount w ->
  rowCount (replaced rowIndex newRecord w) = rowCount w.
Proof.
  intros H. unfold rowCount, replaced in *. simpl.
  rewrite splice_replace_insert by lia. by rewrite length_insert.
Qed.

(** save on a row, without forceOverwrite, when atomicReplace has thrown
    ConcurrentModification: what the handler of the catch does. *)
Lemma saveCatch_cancelled w this c p values attempted carried :
  cursors w !! this = Some c ->
  position_ c = Index p ->
  let event :=
    match attempted with
    | Some a => MovementEvent BEFORE_OVERWRITE (Index p) (Some a)
    | None => RowEvent BEFORE_OVERWRITE (Index p)
    end in
  notCancelled c event = false ->
  saveCatch this p values attempted (ConcurrentModification carried) w
    = (Throw OverwriteBlocked, setCursor this (logged event c) w).
Proof.
  intros H Hpos event Hn. unfold saveCatch.
  rewrite (bind_Return _ _ _ _ _ (Cursor_getPosition_run _ _ _ H)), Hpos.
  fold event.
  rewrite (bind_Return _ _ _ _ _ (Cursor_dispatchEvent_run _ _ _ _ H)).
  by rewrite Hn.
Qed.

Lemma saveCatch_overwrites w this c p values attempted carried :
  cursors w !! this = Some c ->
  position_ c = Index p ->
  0 <= p < rowCount w ->
  let event :=
    match attempted with
    | Some a => MovementEvent BEFORE_OVERWRITE (Index p) (Some a)
    | None => RowEvent BEFORE_OVERWRITE (Index p)
    end in
  notCancelled c event = true ->
  saveCatch this p values attempted (ConcurrentModification carried) w
    = (Return tt,
       setCursor this
         (logged (RowEvent OVERWRITE (Index p)) (logged event c))
         (replaced p values w)).
Proof.
  intros H Hpos Hp event Hn. unfold saveCatch.
  rewrite (bind_Return _ _ _ _ _ (Cursor_getPosition_run _ _ _ H)), Hpos.
  fold event.
  rewrite (bind_Return _ _ _ _ _ (Cursor_dispatchEvent_run _ _ _ _ H)).
  rewrite Hn. cbv beta iota. change (negb true) with false. cbv iota.
  set (w1 := setCursor this (logged event c) w).
  assert (Hp1 : 0 <= p < rowCount w1) by exact Hp.
  rewrite (bind_Return _ _ _ _ _ (SimpleDatasource_replace_run _ _ _ Hp1)).
  assert (H2 : cursors (replaced p values w1) !! this = Some (logged event c)).
  { simpl. apply list_lookup_insert_eq. by eapply lookup_lt_Some. }
  rewrite (bind_Return _ _ _ _ _ (Cursor_getPosition_run _ _ _ H2)).
  change (position_ (logged event c)) with (position_ c). rewrite Hpos.
  rewrite (bind_Return _ _ _ _ _ (Cursor_dispatchEvent_run _ _ _ _ H2)).
  unfold ret, setCursor, withCursors, replaced, w1. simpl.
  by rewrite list_insert_insert_eq.
Qed.

(** C2.  For a Cursor on a row whose record in the Datasource differs
    from loadedValues, save() without forceOverwrite: atomicReplace
    throws ConcurrentModification and BEFORE_OVERWRITE is dispatched
    (with [attempted] as its new position when one is given).  When a
    listener cancels it, save throws OverwriteBlocked and the rows of the
    Datasource are as before.  When none cancels, the row at the
    position of the Cursor becomes a copy of currentValues, OVERWRITE and
    then SAVE are dispatched, and save returns the position. *)
Theorem save_on_concurrent_modification (w : World) (this : nat) (c : Cursor)
    (p : Z) (values asLoaded : nat) (actual : JsObject)
    (suppress : bool) (attempted : option Position) :
  cursors w !! this = Some c ->
  position_ c = Index p ->
  currentRecordValues_ c = Some values ->
  currentRecordAsLoaded_ c = Some asLoaded ->
  (values < length (heap w))%nat ->
  (asLoaded < length (heap w))%nat ->
  dataAllocated w ->
  0 <= p ->
  records w !! Z.to_nat p = Some actual ->
  (exists k, differAt (deref (heap w) asLoaded) actual k) ->
  let before_overwrite :=
    match attempted with
    | Some a => MovementEvent BEFORE_OVERWRITE (Index p) (Some a)
    | None => RowEvent BEFORE_OVERWRITE (Index p)
    end in
  (exists carried w1,
     Datasource_atomicReplace p asLoaded values w
       = (Throw (ConcurrentModification carried), w1)) /\
  (cancelledBy c before_overwrite ->
   exists w' c',
     Cursor_save this suppress false attempted w
       = (Throw OverwriteBlocked, w') /\
     records w' = records w /\
     dataSource_ w' = dataSource_ w /\
     cursors w' !! this = Some c' /\
     position_ c' = Index p /\
     dispatched c' = dispatched c ++ [before_overwrite]) /\
  (~ cancelledBy c before_overwrite ->
   exists w' c',
     Cursor_save this suppress false attempted w = (Return (Index p), w') /\
     records w' = <[Z.to_nat p := deref (heap w) values]> (records w) /\
     cursors w' !! this = Some c' /\
     position_ c' = Index p /\
     dispatched c' =
       dispatched c ++ [before_overwrite; RowEvent OVERWRITE (Index p);
                        RowEvent SAVE (Index p)]).
Proof.
  intros H Hp Hv Hl Hva Hla Ha H0 Hact Hdiff before_overwrite.
  apply records_lookup_inv in Hact as (row & Hrow & ->).
  apply isDifferent_true in Hdiff.
  assert (Hvalid : 0 <= p < rowCount w).
  { apply lookup_lt_Some in Hrow. unfold rowCount. lia. }
  set (w1 := withHeap (heap w ++ [deref (heap w) row]) w).
  assert (Hatomic : Datasource_atomicReplace p asLoaded values w
                    = (Throw (ConcurrentModification (length (heap w))), w1)).
  { rewrite (Datasource_atomicReplace_run _ _ _ _ _ Hla Hva H0 Hrow).
    simpl. by rewrite Hdiff. }
  assert (H1 : cursors w1 !! this = Some c) by exact H.
  assert (Ha1 : dataAllocated w1) by (by apply dataAllocated_withHeap_app).
  assert (Hprefix :
    Cursor_save this suppress false attempted w =
    bind (bind (saveCatch this p values attempted
                  (ConcurrentModification (length (heap w))))
            (fun _ => ret (Index p)))
      (fun newPosition =>
         _ <- Cursor_reloadRecord this ;;
         _ <- Cursor_dispatchEvent this (RowEvent SAVE newPosition) ;;
         position <- Cursor_getPosition this ;;
         _ <- (if bool_decide (newPosition <> position) && negb suppress
               then Cursor_moveInternal this newPosition
               else ret tt) ;;
         ret newPosition) w1).
  { unfold Cursor_save.
    rewrite run_bind, (Cursor_assertCurrentRecord_run _ _ _ H), Hp.
    rewrite (bind_Return _ _ _ _ _ (getCursor_run _ _ _ H)), Hp, Hv, Hl.
    rewrite !run_bind. unfold requireObject at 1, ret at 1.
    rewrite !run_bind. unfold requireObject at 1, ret at 1.
    by rewrite (tryCatch_Throw _ _ _ _ _ Hatomic). }
  rewrite Hprefix. clear Hprefix.
  split; [by eexists _, _|]. split.
  - intros Hc. apply notCancelled_false in Hc.
    exists (setCursor this (logged before_overwrite c) w1),
           (logged before_overwrite c).
    split.
    + erewrite bind_Throw; [reflexivity|].
      erewrite bind_Throw; [reflexivity|].
      by apply saveCatch_cancelled.
    + split; [by apply (records_withHeap_app w)|].
      split; [reflexivity|]. split; [by eapply setCursor_lookup|].
      split; [exact Hp|reflexivity].
  - intros Hc. apply notCancelled_true in Hc.
    set (c2 := logged (RowEvent OVERWRITE (Index p))
                 (logged before_overwrite c)).
    set (w2 := setCursor this c2 (replaced p values w1)).
    assert (Hcatch : saveCatch this p values attempted
                       (ConcurrentModification (length (heap w))) w1
                     = (Return tt, w2)).
    { by apply saveCatch_overwrites. }
    assert (H2 : cursors w2 !! this = Some c2).
    { simpl. apply list_lookup_insert_eq. by eapply lookup_lt_Some. }
    assert (Hv2 : validPosition (rowCount w2) (position_ c2)).
    { change (position_ c2) with (position_ c). rewrite Hp. simpl.
      change (rowCount w2) with (rowCount (replaced p values w1)).
      by rewrite rowCount_replaced. }
    destruct (Cursor_reloadRecord_valid _ _ _ H2 Hv2)
      as (w3 & c3 & Hr & Hre).
    destruct Hre as [Hl3 Hp3 _ Hd3 _ _ Hds3 [t Ht] _ _].
    set (save_event := RowEvent SAVE (Index p)).
    exists (setCursor this (logged save_event c3) w3), (logged save_event c3).
    split.
    + rewrite run_bind, (bind_Return _ _ _ _ _ Hcatch). unfold ret at 1.
      rewrite (bind_Return _ _ _ _ _ Hr).
      rewrite (bind_Return _ _ _ _ _ (Cursor_dispatchEvent_run _ _ _ _ Hl3)).
      assert (H4 : cursors (setCursor this (logged save_event c3) w3) !! this
                   = Some (logged save_event c3))
        by (by eapply setCursor_lookup).
      rewrite (bind_Return _ _ _ _ _ (Cursor_getPosition_run _ _ _ H4)).
      change (position_ (logged save_event c3)) with (position_ c3).
      rewrite Hp3. change (position_ c2) with (position_ c). rewrite Hp.
      rewrite bool_decide_eq_false_2 by (by intros ?). reflexivity.
    + split; [|split; [by eapply setCursor_lookup|split]].
      * assert (Ha2 : dataAllocated w2).
        { apply (dataAllocated_replaced w1). exact Ha1. }
        transitivity (records w2).
        { apply (records_heap_ext w2 _ t); [exact Ha2|exact Hds3|exact Ht]. }
        transitivity (records (replaced p values w1)); [reflexivity|].
        rewrite records_replaced by done.
        unfold w1. rewrite (records_withHeap_app w) by done.
        change (heap (withHeap (heap w ++ [deref (heap w) row]) w))
          with (heap w ++ [deref (heap w) row]).
        by rewrite deref_app_l.
      * change (position_ (logged save_event c3)) with (position_ c3).
        rewrite Hp3. change (position_ c2) with (position_ c). exact Hp.
      * simpl. rewrite Hd3. simpl. by rewrite <- !app_assoc.
Qed.

(** ** Row insertion under a Cursor with edits *)

(** A row inserted at or before the row of the Cursor moves it by one
    and reloads the record: the Cursor has no unsaved edit afterwards
    (when no record holds NaN). *)
Lemma Cursor_handleDataSourceRowInsert_reloads w this c p rowIndex :
  cursors w !! this = Some c ->
  position_ c = Index p ->
  rowIndex <= p ->
  0 <= p + 1 < rowCount w ->
  exists w' c',
    Cursor_handleDataSourceRowInsert this (DsRowEvent ROWS_INSERT [rowIndex]) w
      = (Return tt, w') /\
    cursors w' !! this = Some c' /\
    position_ c' = Index (p + 1) /\
    (noNaN w -> dirtyOf (heap w') c' = Return false) /\
    dispatched c' =
      dispatched c ++ [MovementEvent MOVE_TO (Index p) (Some (Index (p + 1)))].
Proof.
  intros H Hp Hle Hv.
  destruct (Cursor_moveInternal_valid w this c (Index (p + 1)) H Hv)
    as (w' & c' & Hm & Hmoved).
  destruct Hmoved as [Hl Hpos _ Hdis Hclean _ _ _ _ _].
  exists w', c'. split; [|by rewrite <- Hp].
  unfold Cursor_handleDataSourceRowInsert.
  rewrite (bind_Return _ _ _ _ _ (Cursor_getPosition_run _ _ _ H)), Hp.
  simpl. replace (rowIndex <=? p) with true by lia.
  rewrite bool_decide_eq_true_2; [exact Hm|]. intros E. injection E. lia.
Qed.

(** ** discard on a Cursor at NEW and on a row *)

Lemma Cursor_discard_not_dirty w this c opt_newPosition :
  cursors w !! this = Some c ->
  position_ c <> BOF -> position_ c <> EOF ->
  Cursor_isDirty this w = (Return false, w) ->
  Cursor_discard this opt_newPosition w = (Return tt, w).
Proof.
  intros H Hb He Hd. apply (dirtyOf_of_isDirty _ _ _ _ H) in Hd.
  rewrite Cursor_discard_first. by apply (Cursor_discardWith_clean _ _ _ c).
Qed.

(** discard on a row with unsaved edits: currentRecordValues_ becomes a
    new object, a copy of the loaded values, and DISCARD and MODIFIED are
    dispatched. *)
Lemma Cursor_discard_on_row w this c p asLoaded opt_newPosition :
  cursors w !! this = Some c ->
  position_ c = Index p ->
  currentRecordAsLoaded_ c = Some asLoaded ->
  Cursor_isDirty this w = (Return true, w) ->
  Cursor_discard this opt_newPosition w =
    (Return tt,
     setCursor this
       (logged (RowEvent MODIFIED (Index p))
          (logged (MovementEvent DISCARD (Index p) opt_newPosition)
             (withCurrentRecordValues (Some (length (heap w))) c)))
       (withHeap (heap w ++ [deref (heap w) asLoaded]) w)).
Proof.
  intros H Hp Hl Hd. apply (dirtyOf_of_isDirty _ _ _ _ H) in Hd.
  rewrite Cursor_discard_first.
  rewrite (Cursor_discardWith_dirty _ _ _ _ asLoaded _ H); try done;
    try (rewrite Hp; discriminate).
  rewrite Hp. rewrite bool_decide_eq_false_2 by discriminate.
  set (c1 := logged _ _). set (w1 := setCursor this c1 _).
  assert (H1 : cursors w1 !! this = Some c1)
    by (eapply setCursor_lookup; exact H).
  rewrite run_bind. unfold ret at 1.
  rewrite (bind_Return _ _ _ _ _ (Cursor_getPosition_run _ _ _ H1)).
  rewrite (bind_Return _ _ _ _ _ (Cursor_dispatchEvent_run _ _ _ _ H1)).
  change (position_ c1) with (position_ c). rewrite Hp.
  unfold w1. by rewrite setCursor_setCursor.
Qed.

(** discard at NEW with unsaved edits, over a Datasource without rows:
    after DISCARD the move to [rowCount - 1] is refused, discard throws
    IllegalMove, and MODIFIED is not dispatched. *)
Lemma Cursor_discard_at_NEW_empty w this c asLoaded opt_newPosition :
  cursors w !! this = Some c ->
  position_ c = NEW ->
  currentRecordAsLoaded_ c = Some asLoaded ->
  Cursor_isDirty this w = (Return true, w) ->
  rowCount w = 0 ->
  Cursor_discard this opt_newPosition w =
    (Throw IllegalMove,
     setCursor this
       (logged (MovementEvent DISCARD NEW opt_newPosition)
          (withCurrentRecordValues (Some (length (heap w))) c))
       (withHeap (heap w ++ [deref (heap w) asLoaded]) w)).
Proof.
  intros H Hp Hl Hd Hrc. apply (dirtyOf_of_isDirty _ _ _ _ H) in Hd.
  rewrite Cursor_discard_first.
  rewrite (Cursor_discardWith_dirty _ _ _ _ asLoaded _ H); try done;
    try (rewrite Hp; discriminate).
  rewrite Hp. rewrite bool_decide_eq_true_2 by done.
  erewrite bind_Throw; [reflexivity|].
  apply Cursor_setPositionWith_invalid.
  change (rowCount (setCursor _ _ _)) with (rowCount w). lia.
Qed.

(** The copy made by discard is a new object: it is not the object of
    the loaded values, and it holds the same properties. *)
Lemma Cursor_discard_on_row_copies w this c p asLoaded opt_newPosition :
  cursors w !! this = Some c ->
  position_ c = Index p ->
  currentRecordAsLoaded_ c = Some asLoaded ->
  (asLoaded < length (heap w))%nat ->
  Cursor_isDirty this w = (Return true, w) ->
  exists w' c' copy,
    Cursor_discard this opt_newPosition w = (Return tt, w') /\
    cursors w' !! this = Some c' /\
    currentRecordValues_ c' = Some copy /\
    currentRecordAsLoaded_ c' = Some asLoaded /\
    copy <> asLoaded /\
    (length (heap w) <= copy)%nat /\
    deref (heap w') copy = deref (heap w) asLoaded /\
    deref (heap w') asLoaded = deref (heap w) asLoaded.
Proof.
  intros H Hp Hl Hlt Hd.
  eexists _, _, (length (heap w)).
  split; [by apply (Cursor_discard_on_row _ _ c p asLoaded)|].
  split; [eapply setCursor_lookup; exact H|].
  split; [reflexivity|]. split; [exact Hl|]. split; [lia|].
  split; [lia|]. simpl. split; [apply deref_snoc|by apply deref_app_l].
Qed.

(** discard at NEW with unsaved edits, over a Datasource with rows: the
    Cursor is moved to the last row, between DISCARD and MODIFIED.  The
    loaded values hold no NaN: at NEW they are the empty object that
    reloadRecord made. *)
Lemma Cursor_discard_at_NEW_rows w this c asLoaded opt_newPosition :
  cursors w !! this = Some c ->
  position_ c = NEW ->
  currentRecordAsLoaded_ c = Some asLoaded ->
  holdsNoNaN (deref (heap w) asLoaded) ->
  Cursor_isDirty this w = (Return true, w) ->
  0 < rowCount w ->
  exists w' c',
    Cursor_discard this opt_newPosition w = (Return tt, w') /\
    cursors w' !! this = Some c' /\
    position_ c' = Index (rowCount w - 1) /\
    dispatched c' =
      dispatched c ++
        [MovementEvent DISCARD NEW opt_newPosition;
         MovementEvent MOVE_TO NEW (Some (Index (rowCount w - 1)));
         RowEvent MODIFIED (Index (rowCount w - 1))].
Proof.
  intros H Hp Hl Hnan Hd Hrc. apply (dirtyOf_of_isDirty _ _ _ _ H) in Hd.
  rewrite Cursor_discard_first.
  rewrite (Cursor_discardWith_dirty _ _ _ _ asLoaded _ H); try done;
    try (rewrite Hp; discriminate).
  rewrite Hp. rewrite bool_decide_eq_true_2 by done.
  set (c1 := logged _ _). set (w1 := setCursor this c1 _).
  assert (H1 : cursors w1 !! this = Some c1)
    by (eapply setCursor_lookup; exact H).
  assert (Hc1 : dirtyOf (heap w1) c1 = Return false)
    by (by apply discarded_clean).
  assert (Hv : validPosition (rowCount w1) (Index (rowCount w - 1))).
  { simpl. change (rowCount w1) with (rowCount w). lia. }
  assert (Hne : Index (rowCount w - 1) <> position_ c1).
  { change (position_ c1) with (position_ c). by rewrite Hp. }
  destruct (Cursor_moveInternal_valid _ _ _ _ H1 Hv)
    as (w2 & c2 & Hm & Hmoved).
  destruct Hmoved as [Hl2 Hp2 _ Hd2 _ _ _ _ _ _].
  exists (setCursor this (logged (RowEvent MODIFIED (Index (rowCount w - 1))) c2) w2),
         (logged (RowEvent MODIFIED (Index (rowCount w - 1))) c2).
  split; [|split; [by eapply setCursor_lookup|split; [exact Hp2|]]].
  - rewrite run_bind, (Cursor_setPositionWith_moves _ _ _ c1) by done.
    rewrite Hm.
    rewrite (bind_Return _ _ _ _ _ (Cursor_getPosition_run _ _ _ Hl2)).
    rewrite (bind_Return _ _ _ _ _ (Cursor_dispatchEvent_run _ _ _ _ Hl2)).
    by rewrite Hp2.
  - simpl. rewrite Hd2. change (position_ c1) with (position_ c).
    rewrite Hp. simpl. by rewrite <- !app_assoc.
Qed.

(** ** moveRelative(0) on a Cursor with edits *)






End Properties.

(** * The properties on the data of the tests *)

Section OnTheData.

#[local] Existing Instance JsValues.
#[local] Existing Instance JsFragment.

Ltac by_computation := vm_compute; reflexivity.
Ltac decide_by_computation := apply (bool_decide_unpack _); vm_compute; exact I.

(** C3.  On the data of the tests: a Cursor on row 2 whose name has been
    edited, and a row inserted at index 0.  The position becomes 3 and
    no BEFORE_DISCARD or DISCARD is dispatched, but the edit is gone:
    moveInternal has reloaded the record into currentValues. *)
Theorem insert_before_cursor_reloads_record :
  Cursor_isDirty 0 editedOnRow2 = (Return true, editedOnRow2) /\
  positionOf editedOnRow2 0 = Some (Index 2) /\
  currentValuesOf editedOnRow2 0
    = Some (testRecord (VNumber 5) (VString "Stuart")) /\
  positionOf insertedBefore 0 = Some (Index 3) /\
  currentValuesOf insertedBefore 0
    = Some (testRecord (VNumber 5) (VString "Peter")) /\
  Cursor_isDirty 0 insertedBefore = (Return false, insertedBefore) /\
  dispatchedBy insertedBefore 0 =
    dispatchedBy editedOnRow2 0
      ++ [MovementEvent MOVE_TO (Index 2) (Some (Index 3))].
Proof. repeat split; vm_compute; reflexivity. Qed.

(** C7.  On a Datasource without rows: a Cursor at NEW with a field set.
    discard() gives currentValues back as a copy of the (empty) loaded
    values and dispatches DISCARD, then throws IllegalMove: the Cursor
    stays at NEW and MODIFIED is not dispatched. *)
Theorem discard_at_NEW_on_empty_datasource :
  Cursor_isDirty 0 editedNewOnEmpty = (Return true, editedNewOnEmpty) /\
  positionOf editedNewOnEmpty 0 = Some NEW /\
  fst (Cursor_discard 0 None editedNewOnEmpty) = Throw IllegalMove /\
  positionOf (after (Cursor_discard 0 None) editedNewOnEmpty) 0 = Some NEW /\
  currentValuesOf (after (Cursor_discard 0 None) editedNewOnEmpty) 0
    = Some ∅ /\
  dispatchedBy (after (Cursor_discard 0 None) editedNewOnEmpty) 0 =
    dispatchedBy editedNewOnEmpty 0 ++ [MovementEvent DISCARD NEW None].
Proof. repeat split; vm_compute; reflexivity. Qed.

(** C5, on the data of the tests: from BOF moveRelative(-1) throws,
    moveRelative(1) rests on row 0, and on the empty Datasource it rests
    on EOF. *)
Lemma moveRelative_resolves_target_witness :
  Cursor_moveRelative 0 (-1) testWithCursor = (Throw IllegalMove, testWithCursor) /\
  moveRelativeTarget BOF (Some 3) 4 = Return EOF /\
  moveRelativeTarget (Index 2) (Some 3) (-3) = Return BOF /\
  (exists w', Cursor_moveRelative 0 1 testWithCursor = (Return true, w') /\
              position_ <$> cursors w' !! 0%nat = Some (Index 0)) /\
  (exists w', Cursor_moveRelative 0 1 emptyWithCursor = (Return true, w') /\
              position_ <$> cursors w' !! 0%nat = Some EOF).
Proof.
  destruct moveRelative_resolves_target as (H1 & H2 & H3 & H4 & H5).
  split; [|split; [|split; [|split]]].
  - eapply (H1 testWithCursor 0%nat); [reflexivity|reflexivity|lia].
  - apply (H2 (Some 3) 4). lia.
  - apply (H3 2 (Some 3) (-3)).
  - eapply (H4 testWithCursor 0%nat _ 1 (Index 0)); reflexivity.
  - eapply (H5 emptyWithCursor 0%nat); reflexivity.
Defined.

(** C9, on a Cursor at NEW over an empty Datasource. *)
Lemma moveLast_on_empty_datasource_witness :
  exists w',
    Cursor_moveLast 0 (after (Cursor_setPosition 0 NEW) emptyWithCursor)
      = (Throw IllegalMove, w') /\
    position_ <$> cursors w' !! 0%nat = Some NEW.
Proof.
  destruct (moveLast_on_empty_datasource
              (after (Cursor_setPosition 0 NEW) emptyWithCursor) 0%nat
              (cursorState
                 (after (Cursor_setPosition 0 NEW) emptyWithCursor) 0))
    as (w' & Hm & Hp & _);
    [vm_compute; reflexivity|vm_compute; reflexivity|].
  exists w'. split; [exact Hm|exact Hp].
Defined.

(** C1, on the test Datasource: with an expected record that row 1 does
    not match, atomicReplace throws and the rows are as before; with one
    that matches, the row is replaced. *)
Lemma atomicReplace_compare_and_swap_witness :
  (exists w' carried,
     Datasource_atomicReplace 1 3 4 withStaleExpected
       = (Throw (ConcurrentModification carried), w') /\
     deref (heap w') carried = testRecord (VNumber 2) (VString "James") /\
     records w' = records withStaleExpected) /\
  (exists w1,
     Datasource_atomicReplace 1 3 4 withMatchingExpected = (Return tt, w1) /\
     records w1 !! 1%nat = Some (testRecord (VNumber 2) (VString "Jim"))).
Proof.
  split.
  - destruct (atomicReplace_compare_and_swap withStaleExpected 1 3 4
                (testRecord (VNumber 2) (VString "James")))
      as [Hdiff _];
      [decide_by_computation|vm_compute; lia|vm_compute; lia|lia
      |by_computation|].
    destruct Hdiff as (w' & carried & Hrun & Hcar & _ & Hrec & _).
    + exists "name". split; [left; eexists; by_computation|by_computation].
    + exists w', carried. split; [exact Hrun|]. split; [exact Hcar|exact Hrec].
  - destruct (atomicReplace_compare_and_swap withMatchingExpected 1 3 4
                (testRecord (VNumber 2) (VString "James")))
      as [_ Hsame];
      [decide_by_computation|vm_compute; lia|vm_compute; lia|lia
      |by_computation|].
    destruct Hsame as (w1 & w2 & Hrun & _ & Hrec & _ & _ & _ & Hrec2).
    + apply isDifferent_false. by_computation.
    + exists w1. split; [exact Hrun|]. rewrite Hrec, Hrec2. by_computation.
Defined.

(** C2, the scenario of the test: two Cursors on row 1, the first has
    saved 'Stuart', the second holds 'Jonathan'.  When the handler of
    BEFORE_OVERWRITE returns false, save throws OverwriteBlocked and row
    1 is still the record of the first Cursor; when it returns true, row
    1 becomes the record of the second and OVERWRITE is dispatched. *)
Lemma save_on_concurrent_modification_witness :
  (exists w',
     Cursor_save 1 false false None secondBlocksOverwrite
       = (Throw OverwriteBlocked, w') /\
     records w' !! 1%nat = Some (testRecord (VNumber 2) (VString "Stuart"))) /\
  (exists w' c',
     Cursor_save 1 false false None secondAllowsOverwrite
       = (Return (Index 1), w') /\
     records w' !! 1%nat
       = Some (testRecord (VNumber 2) (VString "Jonathan")) /\
     cursors w' !! 1%nat = Some c' /\
     dispatched c' =
       dispatched (cursorState secondAllowsOverwrite 1)
         ++ [RowEvent BEFORE_OVERWRITE (Index 1);
             RowEvent OVERWRITE (Index 1); RowEvent SAVE (Index 1)]).
Proof.
  split.
  - destruct (save_on_concurrent_modification secondBlocksOverwrite 1%nat
                (cursorState secondBlocksOverwrite 1) 1 6%nat 7%nat
                (testRecord (VNumber 2) (VString "Stuart")) false None)
      as (_ & Hblocked & _);
      [by_computation|by_computation|by_computation|by_computation
      |vm_compute; lia|vm_compute; lia|decide_by_computation|lia
      |by_computation| |].
    + exists "name". split; [left; eexists; by_computation|by_computation].
    + destruct Hblocked as (w' & c' & Hrun & Hrec & _).
      * apply notCancelled_false. by_computation.
      * exists w'. split; [exact Hrun|]. rewrite Hrec. by_computation.
  - destruct (save_on_concurrent_modification secondAllowsOverwrite 1%nat
                (cursorState secondAllowsOverwrite 1) 1 6%nat 7%nat
                (testRecord (VNumber 2) (VString "Stuart")) false None)
      as (_ & _ & Hallowed);
      [by_computation|by_computation|by_computation|by_computation
      |vm_compute; lia|vm_compute; lia|decide_by_computation|lia
      |by_computation| |].
    + exists "name". split; [left; eexists; by_computation|by_computation].
    + destruct Hallowed as (w' & c' & Hrun & Hrec & Hl & _ & Hdis).
      * apply notCancelled_true. by_computation.
      * exists w', c'. split; [exact Hrun|]. split; [|split; [exact Hl|exact Hdis]].
        rewrite Hrec. by_computation.
Defined.

(** C4, the scenario of the test: a Cursor at NEW with id 'foo' and name
    'bar' over the three test rows.  save() returns 3, there are four
    rows and the Cursor is on row 3; with suppressMoveTo the Cursor stays
    at NEW with an empty record. *)
Lemma save_from_NEW_witness :
  (exists w',
     Cursor_save 0 false false None newRecordEdited = (Return (Index 3), w') /\
     rowCount w' = 4 /\
     records w' !! 3%nat = Some (testRecord (VString "foo") (VString "bar")) /\
     position_ <$> cursors w' !! 0%nat = Some (Index 3)) /\
  (exists w' l w'',
     Cursor_save 0 true false None newRecordEdited = (Return (Index 3), w') /\
     rowCount w' = 4 /\
     position_ <$> cursors w' !! 0%nat = Some NEW /\
     Cursor_getCurrentValues 0 w' = (Return l, w'') /\
     deref (heap w'') l = ∅).
Proof.
  split.
  - destruct (save_from_NEW newRecordEdited 0%nat
                (cursorState newRecordEdited 0) 3%nat false false None)
      as (w' & Hrun & Hrc & Hrec & Hpos & _);
      [by_computation|by_computation|by_computation|decide_by_computation
      |decide_by_computation|].
    exists w'. split; [exact Hrun|]. split; [exact Hrc|].
    split; [|exact (Hpos eq_refl)]. rewrite Hrec. by_computation.
  - destruct (save_from_NEW newRecordEdited 0%nat
                (cursorState newRecordEdited 0) 3%nat true false None)
      as (w' & Hrun & Hrc & _ & _ & Hsup);
      [by_computation|by_computation|by_computation|decide_by_computation
      |decide_by_computation|].
    destruct (Hsup eq_refl) as (Hpos & l & w'' & Hget & Hempty).
    exists w', l, w''. repeat split; assumption.
Defined.

(** C4 fails beside a Cursor on a stale index.  The first Cursor was on
    row 2 when row 0 was removed and is still on index 2, the row count;
    the second is at NEW with both fields set.  save() on the second adds
    the row, the insertion moves the first Cursor to index 3, where there
    is no record: save throws NoSuchRecord and the second Cursor is still
    at NEW. *)
Lemma save_from_NEW_beside_stale_cursor :
  positionOf newBesideStale 0 = Some (Index 2) /\
  positionOf newBesideStale 1 = Some NEW /\
  rowCount newBesideStale = 2 /\
  fst (Cursor_save 1 false false None newBesideStale) = Throw NoSuchRecord /\
  rowCount (after (Cursor_save 1 false false None) newBesideStale) = 3 /\
  positionOf (after (Cursor_save 1 false false None) newBesideStale) 1
    = Some NEW.
Proof. repeat split; vm_compute; reflexivity. Qed.



(** C8, the scenario of test_cursor_discard: with the name of row 1
    changed isDirty answers true; after discard() it answers false, and
    so after save(); a new Cursor is not dirty. *)
Lemma isDirty_symmetric_diff_witness :
  Cursor_isDirty 0 editedOnRow1 = (Return true, editedOnRow1) /\
  Cursor_isDirty 0 testWithCursor = (Return false, testWithCursor) /\
  Cursor_isDirty 0 (after (Cursor_discard 0 None) editedOnRow1)
    = (Return false, after (Cursor_discard 0 None) editedOnRow1) /\
  Cursor_isDirty 0 (after (Cursor_save 0 false false None) editedOnRow1)
    = (Return false, after (Cursor_save 0 false false None) editedOnRow1).
Proof.
  destruct isDirty_symmetric_diff as (Hiff & Hnone & _ & Hdiscard & Hsave).
  split; [|split; [|split]].
  - destruct (Hiff editedOnRow1 0%nat (cursorState editedOnRow1 0) 3%nat 4%nat)
      as (b & Hrun & Hb); [by_computation|by_computation|by_computation|].
    rewrite Hrun. f_equal. f_equal. apply Hb.
    exists "name". right. right.
    split; [eexists; by_computation|].
    split; [eexists; by_computation|by_computation].
  - apply (Hnone testWithCursor 0%nat (cursorState testWithCursor 0));
      by_computation.
  - apply (Hdiscard editedOnRow1 0%nat (cursorState editedOnRow1 0) None
             (fst (Cursor_discard 0 None editedOnRow1)));
      [by_computation|decide_by_computation|decide_by_computation|].
    unfold after. by destruct (Cursor_discard 0 None editedOnRow1).
  - apply (Hsave editedOnRow1 0%nat false false None (Index 1));
      [decide_by_computation|].
    unfold after.
    assert (E : fst (Cursor_save 0 false false None editedOnRow1)
                = Return (Index 1)) by by_computation.
    destruct (Cursor_save 0 false false None editedOnRow1) as [o w'].
    simpl in E. by rewrite E.
Defined.

(** C8 fails on a record that holds NaN.  The Cursor is on row 1 and its
    id has been set to NaN.  save() returns and row 1 holds NaN; the
    record is reloaded, currentValues and loadedValues both hold NaN at
    id, and isDirty answers true.  discard() then returns, and isDirty
    still answers true. *)
Lemma isDirty_after_save_of_NaN :
  fst (Cursor_save 0 false false None editedToNaN) = Return (Index 1) /\
  records savedNaN !! 1%nat = Some (testRecord VNaN (VString "James")) /\
  currentValuesOf savedNaN 0 = Some (testRecord VNaN (VString "James")) /\
  Cursor_isDirty 0 savedNaN = (Return true, savedNaN) /\
  fst (Cursor_discard 0 None savedNaN) = Return tt /\
  Cursor_isDirty 0 (after (Cursor_discard 0 None) savedNaN)
    = (Return true, after (Cursor_discard 0 None) savedNaN).
Proof. repeat split; vm_compute; reflexivity. Qed.

(** C10, on the test Datasource: an expected record that owns a key
    'extra' holding undefined, which row 1 does not own, does not stop
    atomicReplace; a Cursor at NEW whose name has been set to undefined
    is dirty. *)
Lemma atomicReplace_and_isDirty_disagree_witness :
  (exists w',
     Datasource_atomicReplace 1 3 4 withExtraUndefinedKey = (Return tt, w') /\
     records w' !! 1%nat = Some (testRecord (VNumber 2) (VString "Jim"))) /\
  Cursor_isDirty 0 newWithUndefinedName = (Return true, newWithUndefinedName).
Proof.
  destruct atomicReplace_and_isDirty_disagree as (Hreplace & Hdirty).
  split.
  - destruct (Hreplace withExtraUndefinedKey 1 3%nat 4%nat
                (testRecord (VNumber 2) (VString "James")) "extra")
      as (w' & Hrun & Hrec);
      [decide_by_computation|vm_compute; lia|vm_compute; lia|lia
      |by_computation|left; by_computation|by_computation|by_computation
      | |].
    + intros k' Hk'.
      assert (Hd : deref (heap withExtraUndefinedKey) 3
                   = <["extra" := VUndefined]>
                       (testRecord (VNumber 2) (VString "James")))
        by by_computation.
      rewrite Hd. unfold getProp. rewrite lookup_insert_ne by done.
      apply loose_eq_refl.
      apply (getProp_selfEqual (testRecord (VNumber 2) (VString "James")) k').
      decide_by_computation.
    + exists w'. split; [exact Hrun|]. rewrite Hrec. by_computation.
  - apply (Hdirty newWithUndefinedName 0%nat
             (cursorState newWithUndefinedName 0) 3%nat 4%nat "name");
      [by_computation|by_computation|by_computation|].
    left. split; [eexists; by_computation|by_computation].
Defined.

(** C10 fails on a key that Object.prototype defines.  The expected
    record is row 1 with one more key, toString, holding undefined; at
    every other key the two records read the same values.  Row 1 does
    not own toString and reads the function of Object.prototype there,
    which is not undefined: atomicReplace throws ConcurrentModification
    and the rows are as before. *)
Lemma atomicReplace_undefined_toString :
  records withUndefinedToString !! 1%nat
    = Some (testRecord (VNumber 2) (VString "James")) /\
  deref (heap withUndefinedToString) 3
    = <["toString" := VUndefined]> (testRecord (VNumber 2) (VString "James")) /\
  testRecord (VNumber 2) (VString "James") !! "toString" = None /\
  getProp (testRecord (VNumber 2) (VString "James")) "toString"
    = VBuiltin "toString" /\
  fst (Datasource_atomicReplace 1 3 4 withUndefinedToString)
    = Throw (ConcurrentModification 5) /\
  records (after (Datasource_atomicReplace 1 3 4) withUndefinedToString)
    = records withUndefinedToString.
Proof. repeat split; vm_compute; reflexivity. Qed.

End OnTheData.
